(** * The admin console of [front/app/page.tsx]: request orchestration and view state

    The React component [Home] keeps thirteen [useState] cells, seven
    asynchronous action handlers and one notification helper.  This file
    embeds them as follows.

    - The [useState] cells are the record [View]; a call of a setter is an
      [Assign].
    - An [async] handler is a finite command tree [Prog]: setter calls,
      [setTimeout], one suspension per [await], calls of other handlers that
      are not awaited, and the two ways to finish (normally, or by a thrown
      exception, which rejects the handler's promise).  [try_catch] is the
      [try { .. } catch (err) { .. }] block.
    - The event loop is [step]: user input, handler invocations, completions
      of requests in flight (in any order, with any outcome) and the passing
      of time, which fires the timers that are due. *)

From Stdlib Require Import ZArith NArith Ascii String.
From stdpp Require Import base list strings pretty.

Local Open Scope string_scope.
Local Open Scope list_scope.

(** ** Values of the host language *)

(** A JavaScript number as [parseInt] produces it: [NaN], an integer that
    a double represents, or an infinity. *)
Inductive JsNumber :=
| NaN
| Num (z : Z)
| Infinity (negative : bool).

(** The double nearest to an integer.  Up to 2^53 in magnitude every integer
    is a double.  Beyond, a double keeps 53 significant bits: the integer is
    rounded to the nearest such value, to the even one on a tie, and a
    result of 2^1024 or more is an infinity.  (The standard lets an engine
    replace the digits after the twentieth by zeros first; this is the
    value without that.) *)
Definition number_of_integer (z : Z) : JsNumber :=
  let a := Z.abs z in
  if (a <=? 2 ^ 53)%Z then Num z
  else
    let e := (Z.log2 a - 52)%Z in
    let q := (a / 2 ^ e)%Z in
    let r := (a mod 2 ^ e)%Z in
    let half := (2 ^ (e - 1))%Z in
    let q' := if ((half <? r) || (r =? half) && Z.odd q)%Z
              then (q + 1)%Z else q in
    let m := (q' * 2 ^ e)%Z in
    if (2 ^ 1024 <=? m)%Z then Infinity (z <? 0)%Z
    else Num (Z.sgn z * m).

(** A text is the sequence of the bytes of its UTF-8 encoding.  The
    [StrWhiteSpaceChar]s that [parseInt] skips are the six of one byte
    (TAB, LF, VT, FF, CR, space), U+00A0 of two bytes, and, of three bytes,
    U+1680, U+2000 to U+200A, U+2028, U+2029, U+202F, U+205F, U+3000 and
    U+FEFF. *)
Definition is_ws (c : ascii) : bool :=
  let n := N_of_ascii c in
  ((9 <=? n) && (n <=? 13) || (n =? 32))%N.

(** The first byte of a white space of two or three bytes. *)
Definition is_ws_lead (a : ascii) : bool :=
  let a := N_of_ascii a in
  ((a =? 194) || (a =? 225) || (a =? 226) || (a =? 227) || (a =? 239))%N.

Definition two_byte_ws (a b : ascii) : bool :=
  let a := N_of_ascii a in
  let b := N_of_ascii b in
  ((a =? 194) && (b =? 160))%N.

Definition three_byte_ws (a b c : ascii) : bool :=
  let a := N_of_ascii a in
  let b := N_of_ascii b in
  let c := N_of_ascii c in
  ((a =? 225) && (b =? 154) && (c =? 128)
   || (a =? 226) && (b =? 128)
      && ((128 <=? c) && (c <=? 138) || (c =? 168) || (c =? 169)
          || (c =? 175))
   || (a =? 226) && (b =? 129) && (c =? 159)
   || (a =? 227) && (b =? 128) && (c =? 128)
   || (a =? 239) && (b =? 187) && (c =? 191))%N.

Fixpoint skip_ws (s : string) : string :=
  match s with
  | EmptyString => s
  | String a r =>
      if is_ws a then skip_ws r
      else if negb (is_ws_lead a) then s
      else
        match r with
        | String b (String c r3 as r2) =>
            if two_byte_ws a b then skip_ws r2
            else if three_byte_ws a b c then skip_ws r3
            else s
        | String b EmptyString =>
            if two_byte_ws a b then EmptyString else s
        | EmptyString => s
        end
  end.

(** The value of [c] as a digit of the given radix. *)
Definition digit_val (radix : N) (c : ascii) : option N :=
  let n := N_of_ascii c in
  let d := if ((48 <=? n) && (n <=? 57))%N then Some (n - 48)%N
           else if ((97 <=? n) && (n <=? 122))%N then Some (n - 87)%N
           else if ((65 <=? n) && (n <=? 90))%N then Some (n - 55)%N
           else None in
  match d with
  | Some d => if (d <? radix)%N then Some d else None
  | None => None
  end.

(** The longest prefix of digits, read in the radix; [acc] is [None] until a
    digit has been seen. *)
Fixpoint digits (radix : N) (s : string) (acc : option N) : option N :=
  match s with
  | String c r =>
      match digit_val radix c with
      | Some d => digits radix r (Some (radix * default 0%N acc + d)%N)
      | None => acc
      end
  | EmptyString => acc
  end.

(** [parseInt(s)] with no radix argument: leading white space, a sign, an
    optional [0x] prefix, then digits up to the first character that is not
    one; [NaN] when there is no digit, and otherwise the double nearest to
    the integer read. *)
Definition parseInt (s : string) : JsNumber :=
  let s1 := skip_ws s in
  let '(sign, s2) :=
    match s1 with
    | String "-" r => ((-1)%Z, r)
    | String "+" r => (1%Z, r)
    | _ => (1%Z, s1)
    end in
  let '(radix, s3) :=
    match s2 with
    | String "0" (String "x" r) => (16%N, r)
    | String "0" (String "X" r) => (16%N, r)
    | _ => (10%N, s2)
    end in
  match digits radix s3 None with
  | Some n => number_of_integer (sign * Z.of_N n)
  | None => NaN
  end.

(** A JSON value, what [JSON.stringify] serialises. *)
#[local] Set Warnings "-register-all".
Inductive Json :=
| JNull
| JNum (z : Z)
| JStr (s : string)
| JObj (fields : list (string * Json)).
#[local] Set Warnings "register-all".

(** [JSON.stringify] writes [NaN] and the infinities as [null]. *)
Definition json_of_number (n : JsNumber) : Json :=
  match n with
  | NaN => JNull
  | Num z => JNum z
  | Infinity _ => JNull
  end.

(** ** The data model: [Genre], [UserProfile], [Wallet] *)

Module Genre.
Record t := mk { id : string; name : string; listeners : Z }.
End Genre.

Module UserProfile.
Record t := mk { id : string; username : string; email : string;
                 subscription_level : Z }.
End UserProfile.

Module Wallet.
Record t := mk { coin_balance : Z; credit_balance : Z }.
End Wallet.

(** ** The component state *)

(** One field per [useState] cell of [Home], with the source's names. *)
Record View := mkView {
  activeTab : string;
  genres : list Genre.t;
  profile : option UserProfile.t;
  wallet : option Wallet.t;
  message : string;
  genreId : string;
  genreName : string;
  genreListeners : string;
  userId : string;
  username : string;
  email : string;
  subLevel : string;
  transferAmount : string
}.

(** The initial values given to [useState]. *)
Definition initial_view : View :=
  {| activeTab := "genres"; genres := []; profile := None; wallet := None;
     message := "";
     genreId := ""; genreName := ""; genreListeners := "";
     userId := "user:1234"; username := ""; email := ""; subLevel := "0";
     transferAmount := "" |}.

(** A call of one of the thirteen setters. *)
Inductive Assign :=
| setActiveTab (x : string)
| setGenres (x : list Genre.t)
| setProfile (x : option UserProfile.t)
| setWallet (x : option Wallet.t)
| setMessage (x : string)
| setGenreId (x : string)
| setGenreName (x : string)
| setGenreListeners (x : string)
| setUserId (x : string)
| setUsername (x : string)
| setEmail (x : string)
| setSubLevel (x : string)
| setTransferAmount (x : string).

(** A setter replaces its own cell in the current state and no other. *)
Definition assign (a : Assign) (v : View) : View :=
  let '(mkView tab gs pr wa msg gi gn gl ui un em sl ta) := v in
  match a with
  | setActiveTab x => mkView x gs pr wa msg gi gn gl ui un em sl ta
  | setGenres x => mkView tab x pr wa msg gi gn gl ui un em sl ta
  | setProfile x => mkView tab gs x wa msg gi gn gl ui un em sl ta
  | setWallet x => mkView tab gs pr x msg gi gn gl ui un em sl ta
  | setMessage x => mkView tab gs pr wa x gi gn gl ui un em sl ta
  | setGenreId x => mkView tab gs pr wa msg x gn gl ui un em sl ta
  | setGenreName x => mkView tab gs pr wa msg gi x gl ui un em sl ta
  | setGenreListeners x => mkView tab gs pr wa msg gi gn x ui un em sl ta
  | setUserId x => mkView tab gs pr wa msg gi gn gl x un em sl ta
  | setUsername x => mkView tab gs pr wa msg gi gn gl ui x em sl ta
  | setEmail x => mkView tab gs pr wa msg gi gn gl ui un x sl ta
  | setSubLevel x => mkView tab gs pr wa msg gi gn gl ui un em x ta
  | setTransferAmount x => mkView tab gs pr wa msg gi gn gl ui un em sl x
  end.

(** ** Requests and their outcomes *)

Inductive Method := GET | POST | PUT.

Record Request := mkRequest {
  method : Method;
  url : string;
  headers : list (string * string);
  body : option Json
}.

Definition API_BASE : string := "http://localhost:3001".

(** [fetch(url)] *)
Definition get (u : string) : Request :=
  {| method := GET; url := u; headers := []; body := None |}.

(** [fetch(url, { method, headers: { "Content-Type": "application/json" },
    body: JSON.stringify(b) })] *)
Definition send (m : Method) (u : string) (b : Json) : Request :=
  {| method := m; url := u;
     headers := [("Content-Type", "application/json")]; body := Some b |}.

(** What a handler reads from a response: the three reads take
    [await res.json()] at the type of the cell they store it in ([Genre[]],
    [UserProfile | null], [Wallet | null]; [None] is a [null] body), the
    writes never look at the response. *)
Inductive Kind := KGenres | KProfile | KWallet | KIgnored.

Definition data (k : Kind) : Type :=
  match k with
  | KGenres => list Genre.t
  | KProfile => option UserProfile.t
  | KWallet => option Wallet.t
  | KIgnored => unit
  end.

Definition Kind_eq_dec (a b : Kind) : {a = b} + {a <> b}.
Proof. decide equality. Defined.

(** The outcome of the awaited promise: rejected (a network error, or a body
    that [res.json()] cannot parse), or resolved.  [await fetch(..)] followed
    by [await res.json()] is one suspension: the handler touches no state
    between the two. *)
Inductive Outcome (A : Type) :=
| Rejected
| Resolved (a : A).
Arguments Rejected {A}.
Arguments Resolved {A} a.

(** ** Asynchronous handlers as command trees *)

Inductive Prog : Type :=
| Done
| Throw
| Set_ (a : Assign) (k : Prog)
| SetTimeout (callback : Assign) (ms : N) (k : Prog)
| Await (kd : Kind) (req : Request) (k : Outcome (data kd) -> Prog)
| Call (callee : Prog) (k : Prog).

(** [await fetch(req)] (and [await res.json()]): a rejection is thrown at
    the [await]. *)
Definition fetch (kd : Kind) (req : Request) (k : data kd -> Prog) : Prog :=
  Await kd req (fun o => match o with
                         | Rejected => Throw
                         | Resolved d => k d
                         end).

(** [try { body } catch (err) { handler }].  A callee that is not awaited
    keeps its own exceptions: they reject its promise, not the caller's. *)
Fixpoint try_catch (body handler : Prog) : Prog :=
  match body with
  | Done => Done
  | Throw => handler
  | Set_ a k => Set_ a (try_catch k handler)
  | SetTimeout cb ms k => SetTimeout cb ms (try_catch k handler)
  | Await kd req k => Await kd req (fun o => try_catch (k o) handler)
  | Call callee k => Call callee (try_catch k handler)
  end.

(** Commands are written in continuation style; [c ;; k] runs [c], then [k]. *)
Notation "c ;; k" := (c k) (at level 100, k at level 200, right associativity,
                            only parsing).

(** ** The notification helper and the seven handlers *)

(** [showMessage]: store the text, and schedule [() => setMessage("")] three
    seconds later.  The handle [setTimeout] returns is dropped. *)
Definition showMessage (msg : string) (k : Prog) : Prog :=
  Set_ (setMessage msg) ;;
  SetTimeout (setMessage "") 3000 ;;
  k.

(** A handler is a closure of the render in which it was created: [v] holds
    the values of the cells at that render, which is what the handler reads,
    also after an [await].  Setters act on the current state.  The
    [e.preventDefault()] that opens the submit handlers touches no state of
    the page and is left out. *)
Definition fetchGenres (v : View) : Prog :=
  try_catch
    (fetch KGenres (get (API_BASE +:+ "/genres")) (fun data =>
     Set_ (setGenres data) ;;
     showMessage "Genres loaded!" ;;
     Done))
    (showMessage "Error loading genres" ;; Done).

Definition createGenre (v : View) : Prog :=
  try_catch
    (fetch KIgnored
       (send POST (API_BASE +:+ "/genres")
          (JObj [("id", JStr (genreId v));
                 ("name", JStr (genreName v));
                 ("listeners", json_of_number (parseInt (genreListeners v)))]))
       (fun _ =>
     showMessage "Genre created!" ;;
     Set_ (setGenreId "") ;;
     Set_ (setGenreName "") ;;
     Set_ (setGenreListeners "") ;;
     Call (fetchGenres v) ;;
     Done))
    (showMessage "Error creating genre" ;; Done).

Definition fetchProfile (v : View) : Prog :=
  try_catch
    (fetch KProfile (get (API_BASE +:+ "/users/" +:+ userId v)) (fun data =>
     Set_ (setProfile data) ;;
     showMessage "Profile loaded!" ;;
     Done))
    (showMessage "Error loading profile" ;; Done).

(** The object both [createUser] and [updateUser] serialise. *)
Definition user_payload (v : View) : Json :=
  JObj [("id", JStr (userId v));
        ("username", JStr (username v));
        ("email", JStr (email v));
        ("subscription_level", json_of_number (parseInt (subLevel v)))].

Definition createUser (v : View) : Prog :=
  try_catch
    (fetch KIgnored (send POST (API_BASE +:+ "/users") (user_payload v))
       (fun _ =>
     showMessage "User created!" ;;
     Call (fetchProfile v) ;;
     Done))
    (showMessage "Error creating user" ;; Done).

Definition updateUser (v : View) : Prog :=
  try_catch
    (fetch KIgnored
       (send PUT (API_BASE +:+ "/users/" +:+ userId v) (user_payload v))
       (fun _ =>
     showMessage "User updated!" ;;
     Call (fetchProfile v) ;;
     Done))
    (showMessage "Error updating user" ;; Done).

Definition fetchWallet (v : View) : Prog :=
  try_catch
    (fetch KWallet (get (API_BASE +:+ "/users/" +:+ userId v +:+ "/wallet"))
       (fun data =>
     Set_ (setWallet data) ;;
     showMessage "Wallet loaded!" ;;
     Done))
    (showMessage "Error loading wallet" ;; Done).

Definition transferCredits (v : View) : Prog :=
  try_catch
    (fetch KIgnored
       (send POST (API_BASE +:+ "/users/" +:+ userId v +:+ "/wallet/transfer")
          (JObj [("amount", json_of_number (parseInt (transferAmount v)))]))
       (fun _ =>
     showMessage "Transfer complete!" ;;
     Set_ (setTransferAmount "") ;;
     Call (fetchWallet v) ;;
     Done))
    (showMessage "Error transferring credits" ;; Done).

Inductive Handler :=
| FetchGenres | CreateGenre
| FetchProfile | CreateUser | UpdateUser
| FetchWallet | TransferCredits.

Definition handler (h : Handler) : View -> Prog :=
  match h with
  | FetchGenres => fetchGenres
  | CreateGenre => createGenre
  | FetchProfile => fetchProfile
  | CreateUser => createUser
  | UpdateUser => updateUser
  | FetchWallet => fetchWallet
  | TransferCredits => transferCredits
  end.

(** What each handler reads from its response, and the text its [catch]
    block passes to [showMessage]. *)
Definition handler_kind (h : Handler) : Kind :=
  match h with
  | FetchGenres => KGenres
  | FetchProfile => KProfile
  | FetchWallet => KWallet
  | CreateGenre | CreateUser | UpdateUser | TransferCredits => KIgnored
  end.

Definition error_text (h : Handler) : string :=
  match h with
  | FetchGenres => "Error loading genres"
  | CreateGenre => "Error creating genre"
  | FetchProfile => "Error loading profile"
  | CreateUser => "Error creating user"
  | UpdateUser => "Error updating user"
  | FetchWallet => "Error loading wallet"
  | TransferCredits => "Error transferring credits"
  end.

(** ** The running page *)

(** A request in flight, with the suspended rest of its handler. *)
Record Pending := mkPending {
  pkind : Kind;
  preq : Request;
  pcont : Outcome (data pkind) -> Prog
}.

(** A completed request, as an observer of the network sees it. *)
Record Reply := mkReply {
  rkind : Kind;
  rreq : Request;
  routcome : Outcome (data rkind)
}.

(** [view], [timers] and [inflight] are the page; [now] is the clock in
    milliseconds; [sent] and [history] log the requests issued and the
    completions delivered; [unhandled] counts the promises of handlers that
    were rejected, that is the exceptions that left a handler. *)
Record Sys := mkSys {
  view : View;
  now : N;
  timers : list (N * Assign);
  inflight : list Pending;
  sent : list Request;
  history : list Reply;
  unhandled : nat
}.

Definition init : Sys :=
  {| view := initial_view; now := 0; timers := []; inflight := [];
     sent := []; history := []; unhandled := 0 |}.

(** Run a handler up to its next [await] (or to its end). *)
Fixpoint run (p : Prog) (s : Sys) : Sys :=
  match p with
  | Done => s
  | Throw =>
      mkSys (view s) (now s) (timers s) (inflight s) (sent s) (history s)
            (S (unhandled s))
  | Set_ a k =>
      run k (mkSys (assign a (view s)) (now s) (timers s) (inflight s)
                   (sent s) (history s) (unhandled s))
  | SetTimeout cb ms k =>
      run k (mkSys (view s) (now s) (timers s ++ [((now s + ms)%N, cb)])
                   (inflight s) (sent s) (history s) (unhandled s))
  | Await kd req k =>
      mkSys (view s) (now s) (timers s) (inflight s ++ [mkPending kd req k])
            (sent s ++ [req]) (history s) (unhandled s)
  | Call callee k => run k (run callee s)
  end.

(** What the operator can type or select. *)
Inductive Tab := Genres | Users | WalletTab.

Definition tab_id (t : Tab) : string :=
  match t with
  | Genres => "genres"
  | Users => "users"
  | WalletTab => "wallet"
  end.

Inductive Input :=
| SelectTab (t : Tab)
| TypeGenreId (x : string)
| TypeGenreName (x : string)
| TypeGenreListeners (x : string)
| TypeUserId (x : string)
| TypeUsername (x : string)
| TypeEmail (x : string)
| SelectSubLevel (x : string)
| TypeTransferAmount (x : string).

(** The [onClick] of a tab and the [onChange] of each input. *)
Definition on_input (i : Input) : Assign :=
  match i with
  | SelectTab t => setActiveTab (tab_id t)
  | TypeGenreId x => setGenreId x
  | TypeGenreName x => setGenreName x
  | TypeGenreListeners x => setGenreListeners x
  | TypeUserId x => setUserId x
  | TypeUsername x => setUsername x
  | TypeEmail x => setEmail x
  | SelectSubLevel x => setSubLevel x
  | TypeTransferAmount x => setTransferAmount x
  end.

(** The events of the page.  [Invoke h] is a click or a submit: it calls the
    handler of the latest render.  The page offers a form only on its own
    tab and a submit only with the required fields filled; the events here
    are not restricted in that way, so they cover every run of the page.  [Complete n kd o] settles the [n]-th
    request in flight; a reply of another shape than the handler reads is
    outside the backend's contract and is not delivered. *)
Inductive Event :=
| User (i : Input)
| Invoke (h : Handler)
| Complete (n : nat) (kd : Kind) (o : Outcome (data kd))
| Advance (d : N).

Definition complete (n : nat) (kd : Kind) (o : Outcome (data kd)) (s : Sys)
  : Sys :=
  match inflight s !! n with
  | Some p =>
      match Kind_eq_dec kd (pkind p) with
      | left e =>
          let o' := eq_rect kd (fun k => Outcome (data k)) o (pkind p) e in
          run (pcont p o')
              (mkSys (view s) (now s) (timers s) (delete n (inflight s))
                     (sent s) (history s ++ [mkReply (pkind p) (preq p) o'])
                     (unhandled s))
      | right _ => s
      end
  | None => s
  end.

(** Let [d] milliseconds pass: the callbacks of the timers that are due run,
    oldest first, and leave the timer list. *)
Definition advance (d : N) (s : Sys) : Sys :=
  let t := (now s + d)%N in
  let due := filter (fun x => (x.1 <= t)%N) (timers s) in
  let rest := filter (fun x => ~ (x.1 <= t)%N) (timers s) in
  mkSys (foldl (fun v x => assign x.2 v) (view s) due) t rest
        (inflight s) (sent s) (history s) (unhandled s).

Definition step (e : Event) (s : Sys) : Sys :=
  match e with
  | User i => run (Set_ (on_input i) Done) s
  | Invoke h => run (handler h (view s)) s
  | Complete n kd o => complete n kd o s
  | Advance d => advance d s
  end.

(** A trace, oldest event first. *)
Definition steps (es : list Event) (s : Sys) : Sys :=
  foldl (fun s e => step e s) s es.

(** ** Observations used in the statements *)

(** The request on which a handler suspends first, with the rest of it. *)
Definition entry_of (p : Prog) : option Pending :=
  match p with
  | Await kd req k => Some (mkPending kd req k)
  | _ => None
  end.

(** The [n]-th request in flight is the one on which [p] is suspended. *)
Definition awaits (s : Sys) (n : nat) (p : Prog) : Prop :=
  is_Some (entry_of p) /\ inflight s !! n = entry_of p.

(** The entries a handler of the page can leave in flight. *)
Inductive known : Pending -> Prop :=
| known_intro (h : Handler) (v : View) (p : Pending) :
    entry_of (handler h v) = Some p -> known p.

(** The only timer callback of the page, [() => setMessage("")]. *)
Definition clears (t : N * Assign) : Prop := t.2 = setMessage "".

(** A handler that cannot finish by an exception, whatever the outcomes of
    the requests it awaits. *)
Fixpoint never_throws (p : Prog) : Prop :=
  match p with
  | Done => True
  | Throw => False
  | Set_ _ k => never_throws k
  | SetTimeout _ _ k => never_throws k
  | Await _ _ k => forall o, never_throws (k o)
  | Call callee k => never_throws callee /\ never_throws k
  end.

Definition safe (p : Pending) : Prop := forall o, never_throws (pcont p o).

(** The payload of a successful read of each domain. *)
Definition genres_of (r : Reply) : option (list Genre.t) :=
  match r with
  | mkReply KGenres _ (Resolved d) => Some d
  | _ => None
  end.

Definition profile_of (r : Reply) : option (option UserProfile.t) :=
  match r with
  | mkReply KProfile _ (Resolved d) => Some d
  | _ => None
  end.

Definition wallet_of (r : Reply) : option (option Wallet.t) :=
  match r with
  | mkReply KWallet _ (Resolved d) => Some d
  | _ => None
  end.

(** The three snapshots, and the input cells of each form. *)
Definition snapshots (v : View) :=
  (genres v, profile v, wallet v).

Definition genre_form (v : View) : string * string * string :=
  (genreId v, genreName v, genreListeners v).

Definition user_form (v : View) : string * string * string :=
  (username v, email v, subLevel v).

(** Every snapshot is the payload of the latest successful read of its
    domain, or still the initial value when there was none. *)
Definition snapshots_current (s : Sys) : Prop :=
  genres (view s) = default [] (last (omap genres_of (history s))) /\
  profile (view s) = default None (last (omap profile_of (history s))) /\
  wallet (view s) = default None (last (omap wallet_of (history s))).

(** The invariant of the reachable states. *)
Definition Inv (s : Sys) : Prop :=
  Forall known (inflight s) /\ Forall clears (timers s) /\ snapshots_current s.

(** ** Scenarios *)

(** Two notifications two seconds apart: a successful load of the genres at
    time 0, and a failed one at time 2000. *)
Definition two_notifications : list Event :=
  [Invoke FetchGenres; Complete 0 KGenres (Resolved []);
   Advance 2000;
   Invoke FetchGenres; Complete 0 KGenres Rejected].

(** The profile of the scenario of [createUser]. *)
Definition ann : UserProfile.t :=
  UserProfile.mk "user:1234" "ann" "a@x.com" 1.

(** The operator fills the user form and submits it; the backend accepts the
    create request, and answers the refresh that follows with the profile it
    stored. *)
Definition create_ann : list Event :=
  [User (TypeUsername "ann"); User (TypeEmail "a@x.com");
   User (SelectSubLevel "1");
   Invoke CreateUser;
   Complete 0 KIgnored (Resolved tt);
   Complete 0 KProfile (Resolved (Some ann))].

(** A transfer is submitted for one identifier, and the operator switches to
    another while the request is in flight. *)
Definition switch_during_transfer : list Event :=
  [User (TypeUserId "user:a"); User (TypeTransferAmount "20");
   Invoke TransferCredits;
   User (TypeUserId "user:b");
   Complete 0 KIgnored (Resolved tt)].

(** ** What the page shows *)

(** The [tabs] constant: identifier and label of each tab. *)
Definition tabs : list (string * string) :=
  [("genres", "Genres"); ("users", "Users"); ("wallet", "Wallet")].

(** One card of the genre list: its [key], the name, and the identifier and
    listener count of the second line.  The count is kept as a number;
    [toLocaleString()] formats it for the locale of the browser. *)
Record GenreCard := mkGenreCard {
  card_key : string;
  card_name : string;
  card_id : string;
  card_listeners : Z
}.

Record ProfileCard := mkProfileCard {
  card_username : string;
  card_email : string;
  card_level : Z
}.

Record WalletCard := mkWalletCard {
  card_coins : Z;
  card_credits : Z
}.

(** The three tab bodies: the values of their inputs and what they list. *)
Record GenresPanel := mkGenresPanel {
  genre_id_input : string;
  genre_name_input : string;
  genre_listeners_input : string;
  genre_cards : list GenreCard
}.

Record UsersPanel := mkUsersPanel {
  users_id_input : string;
  users_profile : option ProfileCard;
  username_input : string;
  email_input : string;
  level_select : string
}.

Record WalletPanel := mkWalletPanel {
  wallet_id_input : string;
  wallet_balances : option WalletCard;
  amount_input : string
}.

(** What [Home] returns, without its styling: the toast, the tab buttons
    (label, and whether the button is the highlighted one), and the body of
    each tab when its condition holds. *)
Record Screen := mkScreen {
  toast : option string;
  buttons : list (string * bool);
  genres_panel : option GenresPanel;
  users_panel : option UsersPanel;
  wallet_panel : option WalletPanel
}.

(** The [return] of [Home].  [message && ..], [profile && ..] and
    [wallet && ..] show their element for a non-empty string and for an
    object; the three bodies are guarded by a comparison of [activeTab]
    each. *)
Definition render (v : View) : Screen :=
  {| toast := if String.eqb (message v) "" then None else Some (message v);
     buttons := map (fun tab => (tab.2, String.eqb (activeTab v) tab.1)) tabs;
     genres_panel :=
       if String.eqb (activeTab v) "genres" then
         Some (mkGenresPanel (genreId v) (genreName v) (genreListeners v)
                 (map (fun g => mkGenreCard (Genre.id g) (Genre.name g)
                                  (Genre.id g) (Genre.listeners g))
                      (genres v)))
       else None;
     users_panel :=
       if String.eqb (activeTab v) "users" then
         Some (mkUsersPanel (userId v)
                 (option_map (fun p => mkProfileCard (UserProfile.username p)
                                         (UserProfile.email p)
                                         (UserProfile.subscription_level p))
                             (profile v))
                 (username v) (email v) (subLevel v))
       else None;
     wallet_panel :=
       if String.eqb (activeTab v) "wallet" then
         Some (mkWalletPanel (userId v)
                 (option_map (fun w => mkWalletCard (Wallet.coin_balance w)
                                         (Wallet.credit_balance w))
                             (wallet v))
                 (transferAmount v))
       else None |}.

(** The bodies that are on the screen. *)
Definition shown_panels (sc : Screen) : list Tab :=
  match genres_panel sc with Some _ => [Genres] | None => [] end ++
  match users_panel sc with Some _ => [Users] | None => [] end ++
  match wallet_panel sc with Some _ => [WalletTab] | None => [] end.

(** ** Observations of a run *)

(** The tab selected last in a trace, and the identifier typed last. *)
Definition last_tab (es : list Event) : Tab :=
  foldl (fun t e => match e with User (SelectTab t') => t' | _ => t end)
        Genres es.

Definition last_identifier (es : list Event) : string :=
  foldl (fun x e => match e with User (TypeUserId x') => x' | _ => x end)
        "user:1234" es.

(** The fourteen texts the handlers pass to [showMessage]. *)
Definition notifications : list string :=
  ["Genres loaded!"; "Error loading genres";
   "Genre created!"; "Error creating genre";
   "Profile loaded!"; "Error loading profile";
   "User created!"; "Error creating user";
   "User updated!"; "Error updating user";
   "Wallet loaded!"; "Error loading wallet";
   "Transfer complete!"; "Error transferring credits"].

(** Every pending timer falls due within the next three seconds, and a
    message that is shown has a timer pending. *)
Definition timers_live (s : Sys) : Prop :=
  Forall (fun t => (now s < t.1 <= now s + 3000)%N) (timers s) /\
  (message (view s) = "" \/ timers s <> []).

(** The shape of the requests of the page: the fixed base address; a read
    has no headers and no body, a write has the JSON content type and an
    object as its body. *)
Definition page_request (r : Request) : Prop :=
  (exists path, url r = API_BASE +:+ path) /\
  match method r with
  | GET => headers r = [] /\ body r = None
  | _ => headers r = [("Content-Type", "application/json")] /\
         exists fields, body r = Some (JObj fields)
  end.

(** A text that ends a run of decimal digits: the empty text, or one that
    starts with a character that is not a decimal digit. *)
Definition stops_decimal (rest : string) : Prop :=
  match rest with
  | EmptyString => True
  | String c _ => digit_val 10 c = None
  end.

(** A text that does not turn a leading "0" into the prefix of a
    hexadecimal number. *)
Definition not_hex_mark (rest : string) : Prop :=
  match rest with
  | EmptyString => True
  | String c _ => c <> "x"%char /\ c <> "X"%char
  end.

(** The cards of a list of genres, as [genres.map] builds them. *)
Definition cards_of (gs : list Genre.t) : list GenreCard :=
  map (fun g => mkGenreCard (Genre.id g) (Genre.name g) (Genre.id g)
                  (Genre.listeners g)) gs.

(** ** Exceptions never leave a handler *)

Section Exceptions.

Lemma run_safe (p : Prog) :
  forall s, never_throws p ->
    unhandled (run p s) = unhandled s /\
    (Forall safe (inflight s) -> Forall safe (inflight (run p s))).
Proof.
  induction p as [| |a k IH|cb ms k IH|kd req k IH|callee IHc k IHk];
    intros s Hp; cbn in *.
  - done.
  - done.
  - match goal with |- context [run k ?s0] => exact (IH s0 Hp) end.
  - match goal with |- context [run k ?s0] => exact (IH s0 Hp) end.
  - split; [done|]. intros Hs. apply Forall_app_2; [done|].
    by apply Forall_singleton.
  - destruct Hp as [Hc Hk].
    destruct (IHk (run callee s) Hk) as [-> Hs].
    destruct (IHc s Hc) as [-> Hs']. auto.
Qed.

Lemma handler_never_throws (h : Handler) (v : View) :
  never_throws (handler h v).
Proof.
  destruct h; cbn; intros [|d]; cbn; repeat split; intros [|d']; cbn; done.
Qed.

Lemma step_safe (e : Event) (s : Sys) :
  Forall safe (inflight s) ->
  Forall safe (inflight (step e s)) /\ unhandled (step e s) = unhandled s.
Proof.
  intros Hs. destruct e as [i|h|n kd o|d]; cbn [step].
  - split; [|done]. done.
  - destruct (run_safe (handler h (view s)) s (handler_never_throws _ _))
      as [-> H]. auto.
  - unfold complete. destruct (inflight s !! n) as [p|] eqn:Hn; [|done].
    destruct p as [kd' req k]; cbn [pkind pcont preq].
    destruct (Kind_eq_dec kd kd') as [e|]; [|done].
    subst kd'; cbn [eq_rect].
    pose proof (Forall_lookup_1 _ _ _ _ Hs Hn o) as Hp.
    match goal with |- context [run _ ?s0] =>
      destruct (run_safe (k o) s0 Hp) as [-> H] end.
    split; [|done]. apply H. cbn. by apply Forall_delete.
  - done.
Qed.

Lemma steps_safe (es : list Event) :
  forall s, Forall safe (inflight s) ->
    Forall safe (inflight (steps es s)) /\
    unhandled (steps es s) = unhandled s.
Proof.
  induction es as [|e es IH]; intros s Hs; [done|].
  cbn. destruct (step_safe e s Hs) as [H1 H2].
  destruct (IH _ H1) as [H3 H4]. split; [done|]. unfold steps in H4.
  by rewrite H4.
Qed.

End Exceptions.

(** ** What a suspended handler does when its request settles *)

Section Resume.

Lemma assign_input_snapshots (i : Input) (v : View) :
  snapshots (assign (on_input i) v) = snapshots v.
Proof. by destruct i, v. Qed.

Lemma fold_clears (l : list (N * Assign)) :
  forall v, Forall clears l ->
    foldl (fun v x => assign x.2 v) v l =
    match l with [] => v | _ => assign (setMessage "") v end.
Proof.
  induction l as [|[t a] l IH]; intros v Hl; [done|].
  apply Forall_cons in Hl as [Ha Hl]. unfold clears in Ha. cbn in Ha.
  subst a. cbn. rewrite (IH _ Hl). destruct l; [done|]. by destruct v.
Qed.

Lemma invoke_registers (h : Handler) (s : Sys) :
  exists p, entry_of (handler h (view s)) = Some p /\
    step (Invoke h) s =
    mkSys (view s) (now s) (timers s) (inflight s ++ [p])
          (sent s ++ [preq p]) (history s) (unhandled s).
Proof. destruct h; eexists; split; reflexivity. Qed.

(** The follow-up reads are entries of [fetchGenres], [fetchProfile] and
    [fetchWallet]. *)
Ltac solve_known v :=
  repeat first
    [ apply Forall_nil_2
    | apply Forall_cons_2
    | by apply (known_intro FetchGenres v)
    | by apply (known_intro FetchProfile v)
    | by apply (known_intro FetchWallet v) ].

Lemma resume_known (p : Pending) :
  known p -> forall (o : Outcome (data (pkind p))) (s : Sys),
  let s' := run (pcont p o) s in
  let r := mkReply (pkind p) (preq p) o in
  (exists l, inflight s' = inflight s ++ l /\ Forall known l) /\
  (exists ts, timers s' = timers s ++ ts /\ Forall clears ts) /\
  history s' = history s /\
  genres (view s') = default (genres (view s)) (genres_of r) /\
  profile (view s') = default (profile (view s)) (profile_of r) /\
  wallet (view s') = default (wallet (view s)) (wallet_of r) /\
  user_form (view s') = user_form (view s).
Proof.
  intros [h v q H].
  destruct h; cbn in H; injection H as <-; intros [|d] [vw t ts fl sn hs u];
    destruct vw; cbn;
    (split; [eexists; split;
               [first [reflexivity | symmetry; apply app_nil_r]
               |solve_known v]|]);
    (split; [eexists; split; [reflexivity|repeat constructor]|]);
    done.
Qed.

End Resume.

(** ** The invariant holds in every reachable state *)

Section Invariant.

Lemma Forall_filter_keeps {A} (P : A -> Prop) (Q : A -> Prop)
    `{!forall x, Decision (Q x)} (l : list A) :
  Forall P l -> Forall P (filter Q l).
Proof.
  rewrite !Forall_forall. intros HP x Hx.
  apply list_elem_of_filter in Hx as [_ Hx]. auto.
Qed.

(** Completing the request at [n] resumes its handler with the outcome. *)
Lemma complete_at (s : Sys) (n : nat) kd req k (o : Outcome (data kd)) :
  inflight s !! n = Some (mkPending kd req k) ->
  complete n kd o s =
  run (k o)
      (mkSys (view s) (now s) (timers s) (delete n (inflight s)) (sent s)
             (history s ++ [mkReply kd req o]) (unhandled s)).
Proof.
  intros H. unfold complete. rewrite H. cbn [pkind preq pcont].
  destruct (Kind_eq_dec kd kd) as [e|]; [|done].
  by rewrite (Eqdep_dec.UIP_dec Kind_eq_dec e eq_refl).
Qed.

Lemma last_omap_snoc {A B} (f : A -> option B) (l : list A) (x : A) :
  last (omap f (l ++ [x])) =
  from_option Some (last (omap f l)) (f x).
Proof.
  rewrite omap_app, last_app. cbn. by destruct (f x).
Qed.

Lemma init_Inv : Inv init.
Proof. repeat split; constructor. Qed.

Lemma step_Inv (e : Event) (s : Sys) : Inv s -> Inv (step e s).
Proof.
  intros (Hk & Ht & Hg & Hp & Hw).
  destruct e as [i|h|n kd o|d].
  - pose proof (assign_input_snapshots i (view s)) as Hi.
    injection Hi as Hi1 Hi2 Hi3. repeat split; cbn; congruence.
  - destruct (invoke_registers h s) as (p & Hp' & ->).
    repeat split; cbn; try done.
    apply Forall_app_2; [done|]. apply Forall_singleton. by econstructor.
  - cbn [step]. unfold complete. destruct (inflight s !! n) as [p|] eqn:Hn;
      [|by repeat split].
    pose proof (Forall_lookup_1 _ _ _ _ Hk Hn) as Hkp.
    destruct p as [kd' req k]; cbn [pkind pcont preq] in *.
    destruct (Kind_eq_dec kd kd') as [e|]; [|by repeat split].
    subst kd'; cbn [eq_rect].
    match goal with |- Inv (run _ ?s0) =>
      destruct (resume_known _ Hkp o s0)
        as ((l & Hl & Hkl) & (ts & Hts & Hcl) & Hh & Hg' & Hp' & Hw' & _)
    end.
    cbn [pkind pcont preq view inflight timers history] in *.
    repeat split.
    + rewrite Hl. apply Forall_app_2; [|done]. by apply Forall_delete.
    + rewrite Hts. by apply Forall_app_2.
    + rewrite Hg', Hh, last_omap_snoc, Hg. by destruct (genres_of _).
    + rewrite Hp', Hh, last_omap_snoc, Hp. by destruct (profile_of _).
    + rewrite Hw', Hh, last_omap_snoc, Hw. by destruct (wallet_of _).
  - cbn [step]. unfold advance. repeat split; cbn.
    + done.
    + by apply Forall_filter_keeps.
    + rewrite fold_clears by by apply Forall_filter_keeps.
      rewrite <- Hg. destruct (filter _ _); [done|]. by destruct (view s).
    + rewrite fold_clears by by apply Forall_filter_keeps.
      rewrite <- Hp. destruct (filter _ _); [done|]. by destruct (view s).
    + rewrite fold_clears by by apply Forall_filter_keeps.
      rewrite <- Hw. destruct (filter _ _); [done|]. by destruct (view s).
Qed.

Lemma steps_snoc (es : list Event) (e : Event) (s : Sys) :
  steps (es ++ [e]) s = step e (steps es s).
Proof. unfold steps. by rewrite foldl_snoc. Qed.

Lemma steps_Inv (es : list Event) : forall s, Inv s -> Inv (steps es s).
Proof.
  induction es as [|e es IH]; intros s Hs; [done|].
  cbn. apply IH. by apply step_Inv.
Qed.

Lemma reachable_Inv (es : list Event) : Inv (steps es init).
Proof. apply steps_Inv, init_Inv. Qed.

End Invariant.

(** ** Invoking a handler and settling its request *)

Section Settle.

(** A handler invoked in [s] whose request settles before anything else
    happens. *)
Lemma invoke_complete (h : Handler) (s : Sys) kd req k
    (o : Outcome (data kd)) :
  entry_of (handler h (view s)) = Some (mkPending kd req k) ->
  step (Complete (length (inflight s)) kd o) (step (Invoke h) s) =
  run (k o)
      (mkSys (view s) (now s) (timers s) (inflight s) (sent s ++ [req])
             (history s ++ [mkReply kd req o]) (unhandled s)).
Proof.
  intros H. destruct (invoke_registers h s) as (p & Hp & ->).
  rewrite H in Hp. injection Hp as <-. cbn [step].
  rewrite (complete_at _ _ kd req k); cbn.
  - by rewrite (delete_middle _ []), app_nil_r.
  - by apply list_lookup_middle.
Qed.

(** The same for a request that settles later, in whatever state the page
    is by then. *)
Lemma awaits_complete (s : Sys) (n : nat) (p : Prog) kd req k
    (o : Outcome (data kd)) :
  awaits s n p -> entry_of p = Some (mkPending kd req k) ->
  step (Complete n kd o) s =
  run (k o)
      (mkSys (view s) (now s) (timers s) (delete n (inflight s)) (sent s)
             (history s ++ [mkReply kd req o]) (unhandled s)).
Proof.
  intros [_ Hn] Hp. rewrite Hp in Hn. by apply complete_at.
Qed.

Lemma invoke_awaits (h : Handler) (s : Sys) :
  awaits (step (Invoke h) s) (length (inflight s)) (handler h (view s)).
Proof.
  destruct (invoke_registers h s) as (p & Hp & ->). split.
  - by rewrite Hp.
  - cbn. rewrite Hp. by apply list_lookup_middle.
Qed.

End Settle.

(** ** The claims *)

(** An exception that no [try] block catches is counted: the model does
    distinguish a handler that lets a rejection through. *)
Example uncaught_is_counted :
  let leaky := fetch KIgnored (get "/x") (fun _ => Done) in
  unhandled (complete 0 KIgnored Rejected (run leaky init)) = 1.
Proof. reflexivity. Qed.

(** The rest of a handler whose request is rejected: its [catch] block
    shows the handler's error text and starts the timer, and no exception
    is left. *)
Lemma known_rejected (p : Pending) :
  known p -> forall s : Sys,
  exists h : Handler,
    let s' := run (pcont p Rejected) s in
    message (view s') = error_text h /\
    timers s' = timers s ++ [((now s + 3000)%N, setMessage "")] /\
    unhandled s' = unhandled s.
Proof.
  intros [h v q H] [[] ? ? ? ? ? ?]. exists h.
  by destruct h; cbn in H; injection H as <-.
Qed.

(** C8. Every action handler (load and create of genres; load, create and
    update of the profile; load and transfer of the wallet) catches every
    error at its own boundary and converts it to a notification.  No
    handler can finish by an exception, whatever the backend answers, and
    along every run of the page, with requests settling in any order and
    with any outcome, no exception ever leaves a handler.  When the request
    of a handler is rejected, in whatever state the page is by then, the
    handler shows its own error text, starts the three-second timer and
    ends, with no exception and with nothing left in flight for it; and in
    every reachable state every rejection that is delivered ends in one of
    the seven error texts being shown. *)
Theorem errors_caught_at_handler_boundary :
  (forall (h : Handler) (v : View), never_throws (handler h v)) /\
  (forall es : list Event, unhandled (steps es init) = 0) /\
  (forall (h : Handler) (s : Sys) (n : nat) (v : View),
     awaits s n (handler h v) ->
     let s' := step (Complete n (handler_kind h) Rejected) s in
     message (view s') = error_text h /\
     timers s' = timers s ++ [((now s + 3000)%N, setMessage "")] /\
     unhandled s' = unhandled s /\
     inflight s' = delete n (inflight s)) /\
  (forall (es : list Event) (n : nat) (kd : Kind),
     let s := steps es init in
     let s' := step (Complete n kd Rejected) s in
     s' = s \/
     exists h : Handler,
       message (view s') = error_text h /\
       timers s' = timers s ++ [((now s + 3000)%N, setMessage "")]).
Proof.
  split; [apply handler_never_throws|]. split.
  { intros es. by destruct (steps_safe es init (Forall_nil_2 _)) as [_ ->]. }
  split.
  - intros h s n v Hn s'. subst s'.
    destruct h; cbn [handler handler_kind] in *;
      rewrite (awaits_complete _ _ _ _ _ _ _ Hn eq_refl);
      by destruct s as [[] ? ? ? ? ? ?].
  - intros es n kd s s'. subst s'.
    destruct (reachable_Inv es) as (Hk & _ & _). fold s in Hk.
    cbn [step]. unfold complete.
    destruct (inflight s !! n) as [p|] eqn:Hn; [|by left].
    pose proof (Forall_lookup_1 _ _ _ _ Hk Hn) as Hkp.
    destruct p as [kd' req k]; cbn [pkind pcont preq] in *.
    destruct (Kind_eq_dec kd kd') as [e|]; [|by left].
    subst kd'; cbn [eq_rect]. right.
    match goal with |- context [run _ ?s0] =>
      destruct (known_rejected _ Hkp s0) as (h & Hm & Ht & _) end.
    exists h. split; [exact Hm|exact Ht].
Qed.

Lemma errors_caught_at_handler_boundary_witness :
  let s := steps [User (TypeTransferAmount "20"); Invoke TransferCredits]
                 init in
  let t := steps [Invoke CreateUser; Complete 0 KIgnored (Resolved tt)]
                 init in
  awaits s 0 (handler TransferCredits (view s)) /\
  (let s' := step (Complete 0 KIgnored Rejected) s in
   message (view s') = "Error transferring credits" /\
   timers s' = [(3000%N, setMessage "")] /\
   unhandled s' = 0 /\ inflight s' = []) /\
  awaits t 0 (handler FetchProfile (view t)) /\
  (let t' := step (Complete 0 KProfile Rejected) t in
   message (view t') = "Error loading profile" /\
   timers t' = [(3000%N, setMessage ""); (3000%N, setMessage "")] /\
   unhandled t' = 0 /\ inflight t' = []).
Proof.
  intros s t.
  assert (H : awaits s 0 (handler TransferCredits (view s))).
  { split; [by eexists|reflexivity]. }
  assert (H' : awaits t 0 (handler FetchProfile (view t))).
  { split; [by eexists|reflexivity]. }
  destruct errors_caught_at_handler_boundary as (_ & _ & Hc & _).
  split; [exact H|]. split; [exact (Hc TransferCredits s 0 (view s) H)|].
  split; [exact H'|]. exact (Hc FetchProfile t 0 (view t) H').
Defined.

(** C3. In every reachable state each displayed snapshot (genres, profile,
    wallet) is the initial empty value or exactly the payload of the most
    recent successful read of its domain; and a request that fails, in
    particular a failed load of the genres, of the profile or of the wallet,
    leaves all three snapshots as they were. *)
Theorem snapshot_is_latest_successful_read (es : list Event) :
  let s := steps es init in
  snapshots_current s /\
  forall (n : nat) (kd : Kind),
    snapshots (view (step (Complete n kd Rejected) s)) = snapshots (view s).
Proof.
  intros s. destruct (reachable_Inv es) as (Hk & _ & Hc). fold s in Hk, Hc.
  split; [done|]. intros n kd. cbn [step]. unfold complete.
  destruct (inflight s !! n) as [p|] eqn:Hn; [|done].
  pose proof (Forall_lookup_1 _ _ _ _ Hk Hn) as Hkp.
  destruct p as [kd' req k]; cbn [pkind pcont preq] in *.
  destruct (Kind_eq_dec kd kd') as [e|]; [|done].
  subst kd'; cbn [eq_rect].
  match goal with |- context [run _ ?s0] =>
    destruct (resume_known _ Hkp Rejected s0)
      as (_ & _ & _ & Hg & Hp & Hw & _)
  end.
  cbn [pkind pcont preq view] in *. unfold snapshots.
  rewrite Hg, Hp, Hw. by destruct kd.
Qed.

(** A failed read after a successful one: the completion is recorded and the
    snapshot of the first read stays. *)
Example failed_read_after_success :
  let g := Genre.mk "g1" "jazz" 7 in
  let s := steps [Invoke FetchGenres; Complete 0 KGenres (Resolved [g]);
                  Invoke FetchGenres; Complete 0 KGenres Rejected] init in
  genres (view s) = [g] /\ length (history s) = 2 /\
  message (view s) = "Error loading genres".
Proof. by vm_compute. Qed.

(** C4. A successful [loadAll()]: invoking [fetchGenres] sends the list
    request; when that request resolves, in whatever state the page is by
    then, the held genre list becomes exactly the sequence the backend
    returned, in its order and with nothing kept from the previous list, and
    the notification reads "Genres loaded!". *)
Theorem loadAll_replaces_genres :
  (forall s : Sys,
     let s1 := step (Invoke FetchGenres) s in
     sent s1 = sent s ++ [get "http://localhost:3001/genres"] /\
     awaits s1 (length (inflight s)) (fetchGenres (view s))) /\
  (forall (s : Sys) (n : nat) (v : View) (data : list Genre.t),
     awaits s n (fetchGenres v) ->
     let s' := step (Complete n KGenres (Resolved data)) s in
     genres (view s') = data /\ message (view s') = "Genres loaded!").
Proof.
  split.
  - intros s s1. split; [done|]. apply (invoke_awaits FetchGenres).
  - intros s n v data Hn s'. subst s'.
    rewrite (awaits_complete _ _ _ _ _ _ _ Hn eq_refl).
    by destruct s as [[] ? ? ? ? ? ?].
Qed.

Lemma loadAll_replaces_genres_witness :
  let old := Genre.mk "g0" "old" 1 in
  let new := [Genre.mk "g2" "b" 5; Genre.mk "g1" "a" 9] in
  let s := steps [Invoke FetchGenres; Complete 0 KGenres (Resolved [old]);
                  Invoke FetchGenres] init in
  awaits s 0 (fetchGenres (view s)) /\
  genres (view (step (Complete 0 KGenres (Resolved new)) s)) = new /\
  message (view (step (Complete 0 KGenres (Resolved new)) s)) =
    "Genres loaded!".
Proof.
  intros old new s.
  assert (H : awaits s 0 (fetchGenres (view s))).
  { split; [by eexists|reflexivity]. }
  split; [exact H|].
  exact (proj2 loadAll_replaces_genres s 0 (view s) new H).
Defined.

(** C5. [createGenre]: submitting sends the create request built from the
    three fields.  When that request settles without an exception the
    notification reads "Genre created!", the three fields are empty and a
    [loadAll()] has been issued, whatever the response was; when it throws,
    the notification reads "Error creating genre", the three fields and the
    genre list are as they were, and no request has been issued. *)
Theorem createGenre_outcomes :
  (forall s : Sys,
     let s1 := step (Invoke CreateGenre) s in
     let v := view s in
     sent s1 = sent s ++
       [send POST "http://localhost:3001/genres"
          (JObj [("id", JStr (genreId v)); ("name", JStr (genreName v));
                 ("listeners", json_of_number (parseInt (genreListeners v)))])]
     /\ awaits s1 (length (inflight s)) (createGenre v)) /\
  (forall (s : Sys) (n : nat) (v : View) (u : unit),
     awaits s n (createGenre v) ->
     let s' := step (Complete n KIgnored (Resolved u)) s in
     genre_form (view s') = ("", "", "") /\
     message (view s') = "Genre created!" /\
     sent s' = sent s ++ [get "http://localhost:3001/genres"] /\
     last (inflight s') = entry_of (fetchGenres v)) /\
  (forall (s : Sys) (n : nat) (v : View),
     awaits s n (createGenre v) ->
     let s' := step (Complete n KIgnored Rejected) s in
     message (view s') = "Error creating genre" /\
     genre_form (view s') = genre_form (view s) /\
     genres (view s') = genres (view s) /\
     sent s' = sent s /\
     inflight s' = delete n (inflight s)).
Proof.
  split; [|split].
  - intros s s1 v. split; [done|]. apply (invoke_awaits CreateGenre).
  - intros s n v u Hn s'. subst s'.
    rewrite (awaits_complete _ _ _ _ _ _ _ Hn eq_refl).
    destruct s as [[] ? ? ? ? ? ?]; cbn. repeat split.
    apply last_snoc.
  - intros s n v Hn s'. subst s'.
    rewrite (awaits_complete _ _ _ _ _ _ _ Hn eq_refl).
    by destruct s as [[] ? ? ? ? ? ?].
Qed.

Lemma createGenre_outcomes_witness :
  let s := steps [User (TypeGenreId "g1"); User (TypeGenreName "jazz");
                  User (TypeGenreListeners "12"); Invoke CreateGenre] init in
  awaits s 0 (createGenre (view s)) /\
  (let s' := step (Complete 0 KIgnored (Resolved tt)) s in
   genre_form (view s') = ("", "", "") /\
   message (view s') = "Genre created!" /\
   sent s' = sent s ++ [get "http://localhost:3001/genres"] /\
   last (inflight s') = entry_of (fetchGenres (view s))) /\
  (let s' := step (Complete 0 KIgnored Rejected) s in
   message (view s') = "Error creating genre" /\
   genre_form (view s') = ("g1", "jazz", "12") /\
   genres (view s') = [] /\
   sent s' = sent s /\
   inflight s' = []).
Proof.
  intros s.
  assert (H : awaits s 0 (createGenre (view s))).
  { split; [by eexists|reflexivity]. }
  split; [exact H|]. split.
  - exact (proj1 (proj2 createGenre_outcomes) s 0 (view s) tt H).
  - exact (proj2 (proj2 createGenre_outcomes) s 0 (view s) H).
Defined.

(** C6. [transferCredits]: submitting sends the transfer request, whose
    amount is [parseInt] of the amount field, to the wallet of the active
    identifier.  When it settles without an exception the amount field is
    empty, the notification reads "Transfer complete!" and a [loadWallet()]
    has been issued, whose successful answer becomes the displayed balances;
    when it throws, the notification reads "Error transferring credits" and
    the amount field and the balances are as they were. *)
Theorem transferCredits_outcomes :
  (forall s : Sys,
     let s1 := step (Invoke TransferCredits) s in
     let v := view s in
     sent s1 = sent s ++
       [send POST
          (API_BASE +:+ "/users/" +:+ userId v +:+ "/wallet/transfer")
          (JObj [("amount", json_of_number (parseInt (transferAmount v)))])]
     /\ awaits s1 (length (inflight s)) (transferCredits v)) /\
  (forall (s : Sys) (n : nat) (v : View) (u : unit),
     awaits s n (transferCredits v) ->
     let s' := step (Complete n KIgnored (Resolved u)) s in
     transferAmount (view s') = "" /\
     message (view s') = "Transfer complete!" /\
     sent s' = sent s ++
       [get (API_BASE +:+ "/users/" +:+ userId v +:+ "/wallet")] /\
     last (inflight s') = entry_of (fetchWallet v)) /\
  (forall (s : Sys) (n : nat) (v : View) (w : option Wallet.t),
     awaits s n (fetchWallet v) ->
     wallet (view (step (Complete n KWallet (Resolved w)) s)) = w) /\
  (forall (s : Sys) (n : nat) (v : View),
     awaits s n (transferCredits v) ->
     let s' := step (Complete n KIgnored Rejected) s in
     message (view s') = "Error transferring credits" /\
     transferAmount (view s') = transferAmount (view s) /\
     wallet (view s') = wallet (view s) /\
     sent s' = sent s /\
     inflight s' = delete n (inflight s)).
Proof.
  split; [|split; [|split]].
  - intros s s1 v. split; [done|]. apply (invoke_awaits TransferCredits).
  - intros s n v u Hn s'. subst s'.
    rewrite (awaits_complete _ _ _ _ _ _ _ Hn eq_refl).
    destruct s as [[] ? ? ? ? ? ?]; cbn. repeat split.
    apply last_snoc.
  - intros s n v w Hn.
    rewrite (awaits_complete _ _ _ _ _ _ _ Hn eq_refl).
    by destruct s as [[] ? ? ? ? ? ?].
  - intros s n v Hn s'. subst s'.
    rewrite (awaits_complete _ _ _ _ _ _ _ Hn eq_refl).
    by destruct s as [[] ? ? ? ? ? ?].
Qed.

Lemma transferCredits_outcomes_witness :
  let w0 := Wallet.mk 100 0 in
  let w1 := Wallet.mk 80 20 in
  let s := steps [Invoke FetchWallet;
                  Complete 0 KWallet (Resolved (Some w0));
                  User (TypeTransferAmount "20"); Invoke TransferCredits]
                 init in
  let s1 := step (Complete 0 KIgnored (Resolved tt)) s in
  awaits s 0 (transferCredits (view s)) /\
  awaits s1 0 (fetchWallet (view s)) /\
  (transferAmount (view s1) = "" /\
   message (view s1) = "Transfer complete!" /\
   sent s1 = sent s ++ [get "http://localhost:3001/users/user:1234/wallet"] /\
   last (inflight s1) = entry_of (fetchWallet (view s))) /\
  wallet (view (step (Complete 0 KWallet (Resolved (Some w1))) s1))
    = Some w1 /\
  (let s' := step (Complete 0 KIgnored Rejected) s in
   message (view s') = "Error transferring credits" /\
   transferAmount (view s') = "20" /\
   wallet (view s') = Some w0 /\
   sent s' = sent s /\
   inflight s' = []).
Proof.
  intros w0 w1 s s1.
  assert (H : awaits s 0 (transferCredits (view s))).
  { split; [by eexists|reflexivity]. }
  assert (H1 : awaits s1 0 (fetchWallet (view s))).
  { split; [by eexists|reflexivity]. }
  destruct transferCredits_outcomes as (_ & Hok & Hload & Hfail).
  split; [exact H|]. split; [exact H1|]. split; [|split].
  - exact (Hok s 0 (view s) tt H).
  - exact (Hload s1 0 (view s) (Some w1) H1).
  - exact (Hfail s 0 (view s) H).
Defined.

(** C2, as the code has it. [createUser] sends the create request with the
    payload [{id, username, email, subscription_level}], where [id] is the
    active identifier and [subscription_level] is [parseInt] of the selected
    level (0, 1 or 2 for the three options).  When the request settles
    without an exception the notification reads "User created!", the
    profile snapshot is still the previous one, and a [loadProfile] for the
    same identifier has been issued; when that read succeeds the snapshot
    becomes the profile it returned and the notification reads
    "Profile loaded!".  When the create request throws, the notification
    reads "Error creating user" and nothing else happens. *)
Theorem createUser_outcomes :
  (forall s : Sys,
     let s1 := step (Invoke CreateUser) s in
     let v := view s in
     sent s1 = sent s ++
       [send POST "http://localhost:3001/users"
          (JObj [("id", JStr (userId v)); ("username", JStr (username v));
                 ("email", JStr (email v));
                 ("subscription_level",
                  json_of_number (parseInt (subLevel v)))])]
     /\ awaits s1 (length (inflight s)) (createUser v)) /\
  (parseInt "0" = Num 0 /\ parseInt "1" = Num 1 /\ parseInt "2" = Num 2) /\
  (forall (s : Sys) (n : nat) (v : View) (u : unit),
     awaits s n (createUser v) ->
     let s' := step (Complete n KIgnored (Resolved u)) s in
     message (view s') = "User created!" /\
     profile (view s') = profile (view s) /\
     sent s' = sent s ++ [get (API_BASE +:+ "/users/" +:+ userId v)] /\
     last (inflight s') = entry_of (fetchProfile v)) /\
  (forall (s : Sys) (n : nat) (v : View) (p : option UserProfile.t),
     awaits s n (fetchProfile v) ->
     let s' := step (Complete n KProfile (Resolved p)) s in
     profile (view s') = p /\ message (view s') = "Profile loaded!") /\
  (forall (s : Sys) (n : nat) (v : View),
     awaits s n (createUser v) ->
     let s' := step (Complete n KIgnored Rejected) s in
     message (view s') = "Error creating user" /\
     profile (view s') = profile (view s) /\
     sent s' = sent s /\
     inflight s' = delete n (inflight s)).
Proof.
  split; [|split; [|split; [|split]]].
  - intros s s1 v. split; [done|]. apply (invoke_awaits CreateUser).
  - done.
  - intros s n v u Hn s'. subst s'.
    rewrite (awaits_complete _ _ _ _ _ _ _ Hn eq_refl).
    destruct s as [[] ? ? ? ? ? ?]; cbn. repeat split.
    apply last_snoc.
  - intros s n v p Hn s'. subst s'.
    rewrite (awaits_complete _ _ _ _ _ _ _ Hn eq_refl).
    by destruct s as [[] ? ? ? ? ? ?].
  - intros s n v Hn s'. subst s'.
    rewrite (awaits_complete _ _ _ _ _ _ _ Hn eq_refl).
    by destruct s as [[] ? ? ? ? ? ?].
Qed.

Lemma createUser_outcomes_witness :
  let s := steps (take 4 create_ann) init in
  let s1 := step (Complete 0 KIgnored (Resolved tt)) s in
  awaits s 0 (createUser (view s)) /\
  awaits s1 0 (fetchProfile (view s)) /\
  (message (view s1) = "User created!" /\
   profile (view s1) = None /\
   sent s1 = sent s ++ [get "http://localhost:3001/users/user:1234"] /\
   last (inflight s1) = entry_of (fetchProfile (view s))) /\
  (let s' := step (Complete 0 KProfile (Resolved (Some ann))) s1 in
   profile (view s') = Some ann /\ message (view s') = "Profile loaded!") /\
  (let s' := step (Complete 0 KIgnored Rejected) s in
   message (view s') = "Error creating user" /\
   profile (view s') = None /\
   sent s' = sent s /\
   inflight s' = []).
Proof.
  intros s s1.
  assert (H : awaits s 0 (createUser (view s))).
  { split; [by eexists|reflexivity]. }
  assert (H1 : awaits s1 0 (fetchProfile (view s))).
  { split; [by eexists|reflexivity]. }
  destruct createUser_outcomes as (_ & _ & Hok & Hload & Hfail).
  split; [exact H|]. split; [exact H1|]. split; [|split].
  - exact (Hok s 0 (view s) tt H).
  - exact (Hload s1 0 (view s) (Some ann) H1).
  - exact (Hfail s 0 (view s) H).
Defined.

(** C2 as stated fails in its own scenario: the request sent is the one
    described, but at no moment of the run is the submitted profile
    displayed together with "User created!".  While that text is shown the
    snapshot is still absent, and when the snapshot arrives the text is
    "Profile loaded!". *)
Lemma createUser_scenario_reads_profile_loaded :
  (forall k : nat,
     let s := steps (take k create_ann) init in
     ~ (profile (view s) = Some ann /\ message (view s) = "User created!")) /\
  (let s := steps (take 5 create_ann) init in
   profile (view s) = None /\ message (view s) = "User created!") /\
  (let s := steps create_ann init in
   profile (view s) = Some ann /\ message (view s) = "Profile loaded!").
Proof.
  split; [|by vm_compute].
  intros k.
  do 7 (destruct k as [|k];
        [intros s [Hp Hm]; vm_compute in Hp, Hm; congruence|]).
  intros s [Hp Hm]; vm_compute in Hp, Hm; congruence.
Qed.

(** C7, as the code has it. A handler reads the identifier of the render in
    which it was created.  A load that the operator invokes after setting
    the identifier is therefore keyed by the new identifier; the refresh
    that a settled create, update or transfer triggers is keyed by the
    identifier that was active when that action was submitted, whatever the
    identifier is by then. *)
Theorem loads_key_by_render_identifier :
  (forall (s : Sys) (b : string),
     let s1 := step (User (TypeUserId b)) s in
     userId (view s1) = b /\
     sent (step (Invoke FetchWallet) s1) =
       sent s1 ++ [get (API_BASE +:+ "/users/" +:+ b +:+ "/wallet")] /\
     sent (step (Invoke FetchProfile) s1) =
       sent s1 ++ [get (API_BASE +:+ "/users/" +:+ b)]) /\
  (forall (s : Sys) (n : nat) (v : View) (u : unit),
     awaits s n (transferCredits v) ->
     sent (step (Complete n KIgnored (Resolved u)) s) =
       sent s ++ [get (API_BASE +:+ "/users/" +:+ userId v +:+ "/wallet")]) /\
  (forall (s : Sys) (n : nat) (v : View) (u : unit),
     awaits s n (createUser v) \/ awaits s n (updateUser v) ->
     sent (step (Complete n KIgnored (Resolved u)) s) =
       sent s ++ [get (API_BASE +:+ "/users/" +:+ userId v)]).
Proof.
  split; [|split].
  - intros s b s1. subst s1. by destruct s as [[] ? ? ? ? ? ?].
  - intros s n v u Hn.
    rewrite (awaits_complete _ _ _ _ _ _ _ Hn eq_refl).
    by destruct s as [[] ? ? ? ? ? ?].
  - intros s n v u [Hn|Hn];
      rewrite (awaits_complete _ _ _ _ _ _ _ Hn eq_refl);
      by destruct s as [[] ? ? ? ? ? ?].
Qed.

Lemma loads_key_by_render_identifier_witness :
  let s := steps (take 4 switch_during_transfer) init in
  let t := steps [User (TypeUserId "user:a"); Invoke UpdateUser;
                  User (TypeUserId "user:b")] init in
  awaits s 0 (transferCredits (view (steps (take 2 switch_during_transfer)
                                           init))) /\
  userId (view s) = "user:b" /\
  sent (step (Complete 0 KIgnored (Resolved tt)) s) =
    sent s ++ [get "http://localhost:3001/users/user:a/wallet"] /\
  awaits t 0 (updateUser (view (steps [User (TypeUserId "user:a")] init))) /\
  sent (step (Complete 0 KIgnored (Resolved tt)) t) =
    sent t ++ [get "http://localhost:3001/users/user:a"].
Proof.
  intros s t.
  set (v := view (steps (take 2 switch_during_transfer) init)).
  set (v' := view (steps [User (TypeUserId "user:a")] init)).
  assert (H : awaits s 0 (transferCredits v)).
  { split; [by eexists|reflexivity]. }
  assert (H' : awaits t 0 (updateUser v')).
  { split; [by eexists|reflexivity]. }
  destruct loads_key_by_render_identifier as (_ & Hw & Hp).
  split; [exact H|]. split; [reflexivity|]. split; [|split].
  - exact (Hw s 0 v tt H).
  - exact H'.
  - exact (Hp t 0 v' tt (or_intror H')).
Defined.

(** C7 as stated fails: the operator submits a transfer for "user:a" and
    switches to "user:b" while it is in flight; the [fetchWallet()] that the
    settled transfer then calls asks for the wallet of "user:a". *)
Lemma switched_identifier_not_used_by_refresh :
  let s := steps switch_during_transfer init in
  userId (view s) = "user:b" /\
  last (sent s) = Some (get "http://localhost:3001/users/user:a/wallet") /\
  last (sent s) <> Some (get "http://localhost:3001/users/user:b/wallet").
Proof. by vm_compute. Qed.

(** C9. Two [loadProfile] in a row, each settled by the same answer of the
    backend (the same profile, or the same failure), with nothing in
    between: the profile displayed after the second equals the one displayed
    after the first, and so does the whole view; both requests are the
    same. *)
Theorem loadProfile_idempotent (s : Sys)
    (o : Outcome (option UserProfile.t)) :
  let load := fun s : Sys =>
    step (Complete (length (inflight s)) KProfile o)
         (step (Invoke FetchProfile) s) in
  let r := get (API_BASE +:+ "/users/" +:+ userId (view s)) in
  profile (view (load (load s))) = profile (view (load s)) /\
  view (load (load s)) = view (load s) /\
  sent (load (load s)) = (sent s ++ [r]) ++ [r].
Proof.
  intros load r. subst load r. cbv beta.
  rewrite (invoke_complete FetchProfile s KProfile _ _ o eq_refl).
  match goal with |- context [step (Invoke FetchProfile) ?s0] =>
    rewrite (invoke_complete FetchProfile s0 KProfile _ _ o eq_refl) end.
  by destruct o, s as [[] ? ? ? ? ? ?].
Qed.

(** C10. The user form is never cleared: in every reachable state, invoking
    a handler ([createUser] and [updateUser] among them), settling any
    request in flight with any outcome (the create or update request, and
    the refresh that follows it), and the passing of time all leave the
    username, email and subscription-level fields as they are.  Only the
    operator's input changes them. *)
Theorem user_form_never_cleared (es : list Event) :
  let s := steps es init in
  (forall h : Handler,
     user_form (view (step (Invoke h) s)) = user_form (view s)) /\
  (forall (n : nat) (kd : Kind) (o : Outcome (data kd)),
     user_form (view (step (Complete n kd o) s)) = user_form (view s)) /\
  (forall d : N,
     user_form (view (step (Advance d) s)) = user_form (view s)).
Proof.
  intros s. destruct (reachable_Inv es) as (Hk & Ht & _). fold s in Hk, Ht.
  split; [|split].
  - intros h. by destruct (invoke_registers h s) as (p & _ & ->).
  - intros n kd o. cbn [step]. unfold complete.
    destruct (inflight s !! n) as [p|] eqn:Hn; [|done].
    pose proof (Forall_lookup_1 _ _ _ _ Hk Hn) as Hkp.
    destruct p as [kd' req k]; cbn [pkind pcont preq] in *.
    destruct (Kind_eq_dec kd kd') as [e|]; [|done].
    subst kd'; cbn [eq_rect].
    match goal with |- context [run _ ?s0] =>
      destruct (resume_known _ Hkp o s0) as (_ & _ & _ & _ & _ & _ & Hu)
    end.
    exact Hu.
  - intros d. cbn [step]. unfold advance. cbn [view].
    rewrite fold_clears by by apply Forall_filter_keeps.
    destruct (filter _ _); [done|]. by destruct (view s).
Qed.

(** The two submissions of the user form, each with both outcomes and with
    the refresh settled: the fields keep what the operator typed. *)
Example user_form_after_create_and_update :
  let s := steps (take 3 create_ann) init in
  let typed := ("ann", "a@x.com", "1") in
  Forall (fun es => user_form (view (steps es s)) = typed)
    [ [Invoke CreateUser; Complete 0 KIgnored (Resolved tt);
       Complete 0 KProfile (Resolved (Some ann))];
      [Invoke CreateUser; Complete 0 KIgnored Rejected];
      [Invoke UpdateUser; Complete 0 KIgnored (Resolved tt);
       Complete 0 KProfile Rejected];
      [Invoke UpdateUser; Complete 0 KIgnored Rejected] ].
Proof. repeat constructor. Qed.

(** ** The notification and its timers *)

Section Notification.

(** After [d] milliseconds the message is empty if a timer was due, and
    what it was otherwise. *)
Lemma advance_message (d : N) (s : Sys) :
  Forall clears (timers s) ->
  message (view (advance d s)) =
  match filter (fun x => (x.1 <= now s + d)%N) (timers s) with
  | [] => message (view s)
  | _ => ""
  end.
Proof.
  intros Ht. unfold advance. cbn [view].
  rewrite fold_clears by by apply Forall_filter_keeps.
  destruct (filter _ _); [done|]. by destruct (view s).
Qed.

Lemma filter_none {A} (P : A -> Prop) `{!forall x, Decision (P x)}
    (l : list A) :
  Forall (fun x => ~ P x) l -> filter P l = [].
Proof.
  intros Hl. apply elem_of_nil_inv. intros x Hx.
  apply list_elem_of_filter in Hx as [HP Hx].
  rewrite Forall_forall in Hl. by apply (Hl x).
Qed.

Lemma filter_some {A} (P : A -> Prop) `{!forall x, Decision (P x)}
    (l : list A) :
  Exists P l -> filter P l <> [].
Proof.
  intros Hl Hnil. apply Exists_exists in Hl as (x & Hx & HP).
  assert (Hin : x ∈ filter P l) by by apply list_elem_of_filter.
  rewrite Hnil in Hin. by apply elem_of_nil in Hin.
Qed.

End Notification.

(** C1, as the code has it. [showMessage(m)] stores [m] and adds a timer
    three seconds ahead; it cancels nothing, so every earlier timer is still
    pending.  The message is emptied when the earliest pending timer fires:
    [m] is still shown after [d] < 3000 ms if no earlier timer falls due in
    that time, it is empty after [d] ms if one does, and it is empty once
    3000 ms have passed.  The message is one string, so at most one text is
    visible at any time. *)
Theorem showMessage_until_earliest_timer (es : list Event) (m : string)
    (d : N) :
  let s := steps es init in
  let s1 := run (showMessage m Done) s in
  message (view s1) = m /\
  timers s1 = timers s ++ [((now s + 3000)%N, setMessage "")] /\
  ((d < 3000)%N -> Forall (fun t => (now s + d < t.1)%N) (timers s) ->
     message (view (advance d s1)) = m) /\
  (Exists (fun t => (t.1 <= now s + d)%N) (timers s) ->
     message (view (advance d s1)) = "") /\
  ((3000 <= d)%N -> message (view (advance d s1)) = "").
Proof.
  intros s s1. destruct (reachable_Inv es) as (_ & Ht & _). fold s in Ht.
  assert (Hm : message (view s1) = m) by by destruct s as [[] ? ? ? ? ? ?].
  assert (Hts : timers s1 = timers s ++ [((now s + 3000)%N, setMessage "")])
    by done.
  assert (Hnow : now s1 = now s) by done.
  assert (Ht1 : Forall clears (timers s1)).
  { rewrite Hts. apply Forall_app_2; [done|]. by apply Forall_singleton. }
  split; [done|]. split; [done|].
  rewrite (advance_message d s1 Ht1), Hnow, Hts, Hm.
  split; [|split].
  - intros Hd Hall. rewrite filter_none; [done|].
    apply Forall_app_2.
    + eapply Forall_impl; [exact Hall|]. cbn. intros t H. lia.
    + apply Forall_singleton. cbn. lia.
  - intros Hex.
    pose proof (filter_some (fun x => (x.1 <= now s + d)%N)
                  (timers s ++ [((now s + 3000)%N, setMessage "")])) as Hne.
    destruct (filter _ _); [|done].
    exfalso. apply Hne; [|done]. apply Exists_app. by left.
  - intros Hd.
    pose proof (filter_some (fun x => (x.1 <= now s + d)%N)
                  (timers s ++ [((now s + 3000)%N, setMessage "")])) as Hne.
    destruct (filter _ _); [|done].
    exfalso. apply Hne; [|done]. apply Exists_app. right.
    apply Exists_cons_hd. cbn. lia.
Qed.

Lemma showMessage_until_earliest_timer_witness :
  let es := [Invoke FetchGenres; Complete 0 KGenres (Resolved []);
             Advance 2000] in
  let s := steps es init in
  let s1 := run (showMessage "saved" Done) s in
  ((500 < 3000)%N /\
   Forall (fun t => (now s + 500 < t.1)%N) (timers s) /\
   message (view (advance 500 s1)) = "saved") /\
  (Exists (fun t => (t.1 <= now s + 1000)%N) (timers s) /\
   message (view (advance 1000 s1)) = "") /\
  ((3000 <= 3000)%N /\ message (view (advance 3000 s1)) = "").
Proof.
  intros es s s1.
  assert (H1 : (500 < 3000)%N) by lia.
  assert (H2 : Forall (fun t => (now s + 500 < t.1)%N) (timers s)).
  { apply Forall_singleton. vm_compute. reflexivity. }
  assert (H3 : Exists (fun t => (t.1 <= now s + 1000)%N) (timers s)).
  { apply Exists_cons_hd. vm_compute. discriminate. }
  assert (H4 : (3000 <= 3000)%N) by lia.
  split; [|split].
  - split; [exact H1|]. split; [exact H2|].
    exact (proj1 (proj2 (proj2
             (showMessage_until_earliest_timer es "saved" 500))) H1 H2).
  - split; [exact H3|].
    exact (proj1 (proj2 (proj2 (proj2
             (showMessage_until_earliest_timer es "saved" 1000)))) H3).
  - split; [exact H4|].
    exact (proj2 (proj2 (proj2 (proj2
             (showMessage_until_earliest_timer es "saved" 3000)))) H4).
Defined.

(** C1 as stated fails: a second notification does not cancel the timer of
    the first.  "Genres loaded!" is shown at time 0 and
    "Error loading genres" at time 2000; both timers are then pending, and
    one second later, at time 3000, the first one empties the message,
    2000 ms before the second notification was due to expire. *)
Lemma second_notification_cut_short :
  let s := steps two_notifications init in
  let s' := step (Advance 1000) s in
  (message (view s) = "Error loading genres" /\ now s = 2000%N /\
   timers s = [(3000%N, setMessage ""); (5000%N, setMessage "")]) /\
  (message (view s') = "" /\ now s' = 3000%N /\
   timers s' = [(5000%N, setMessage "")]) /\
  message (view s') <> "Error loading genres".
Proof. by vm_compute. Qed.

(** [parseInt] on the texts the forms can hold. *)
Example parseInt_examples :
  parseInt "20" = Num 20 /\ parseInt " -42px" = Num (-42) /\
  parseInt "0x1f" = Num 31 /\ parseInt "1e3" = Num 1 /\
  parseInt "" = NaN /\ parseInt "abc" = NaN /\
  json_of_number (parseInt "") = JNull.
Proof. by vm_compute. Qed.

(** ** Further properties of the page *)

Section Frame.

(** Running a handler logs every request it leaves in flight, and moves
    neither the clock nor the log of completions. *)
Lemma run_log (p : Prog) :
  forall s, exists l,
    inflight (run p s) = inflight s ++ l /\
    sent (run p s) = sent s ++ map preq l /\
    history (run p s) = history s /\
    now (run p s) = now s.
Proof.
  induction p as [| |a k IH|cb ms k IH|kd req k IH|callee IHc k IHk];
    intros s; cbn [run].
  - exists []. by rewrite !app_nil_r.
  - exists []. by rewrite !app_nil_r.
  - match goal with |- context [run k ?s0] => exact (IH s0) end.
  - match goal with |- context [run k ?s0] => exact (IH s0) end.
  - by exists [mkPending kd req k].
  - destruct (IHc s) as (l1 & H1 & H2 & H3 & H4).
    destruct (IHk (run callee s)) as (l2 & H5 & H6 & H7 & H8).
    exists (l1 ++ l2).
    rewrite H5, H6, H7, H8, H1, H2, H3, H4, map_app, !app_assoc. done.
Qed.

Lemma known_page_request (p : Pending) : known p -> page_request (preq p).
Proof.
  intros [h v q H].
  destruct h; cbn in H; injection H as <-;
    (split; [eexists; reflexivity|]); cbn; eauto.
Qed.

(** What the resumed rest of a handler does to the notification and to the
    cells no handler writes. *)
Lemma resume_known_notifies (p : Pending) :
  known p -> forall (o : Outcome (data (pkind p))) (s : Sys),
  let s' := run (pcont p o) s in
  timers s' = timers s ++ [((now s + 3000)%N, setMessage "")] /\
  message (view s') ∈ notifications /\
  activeTab (view s') = activeTab (view s) /\
  userId (view s') = userId (view s).
Proof.
  intros [h v q H].
  destruct h; cbn in H; injection H as <-; intros [|d] [vw t ts fl sn hs u];
    destruct vw; cbn; (split; [reflexivity|]);
    (split; [|done]); unfold notifications; repeat constructor.
Qed.

End Frame.

(** ** One event in a state that satisfies the invariant *)

Section Step.

Variable s : Sys.
Hypothesis HInv : Inv s.

(** A completion is ignored, or resumes one of the page's handlers. *)
Lemma complete_cases (n : nat) (kd : Kind) (o : Outcome (data kd)) :
  complete n kd o s = s \/
  exists (p : Pending) (o' : Outcome (data (pkind p))),
    known p /\ inflight s !! n = Some p /\
    complete n kd o s =
    run (pcont p o')
        (mkSys (view s) (now s) (timers s) (delete n (inflight s)) (sent s)
               (history s ++ [mkReply (pkind p) (preq p) o'])
               (unhandled s)).
Proof.
  destruct HInv as (Hk & _ & _). unfold complete.
  destruct (inflight s !! n) as [p|] eqn:Hn; [|by left].
  pose proof (Forall_lookup_1 _ _ _ _ Hk Hn) as Hkp.
  destruct p as [kd' req k]; cbn [pkind pcont preq] in *.
  destruct (Kind_eq_dec kd kd') as [e|]; [|by left].
  subst kd'; cbn [eq_rect]. right.
  by exists (mkPending kd req k), o.
Qed.

(** Only the operator changes the tab and the identifier. *)
Lemma step_cells (e : Event) :
  activeTab (view (step e s)) =
    match e with
    | User (SelectTab t) => tab_id t
    | _ => activeTab (view s)
    end /\
  userId (view (step e s)) =
    match e with
    | User (TypeUserId x) => x
    | _ => userId (view s)
    end.
Proof.
  destruct e as [i|h|n kd o|d].
  - by destruct i, s as [[] ? ? ? ? ? ?].
  - by destruct (invoke_registers h s) as (p & _ & ->).
  - cbn [step].
    destruct (complete_cases n kd o) as [->|(p & o' & Hp & _ & ->)]; [done|].
    match goal with |- context [run _ ?s0] =>
      destruct (resume_known_notifies _ Hp o' s0) as (_ & _ & Ha & Hu) end.
    by rewrite Ha, Hu.
  - destruct HInv as (_ & Ht & _). cbn [step]. unfold advance. cbn [view].
    rewrite fold_clears by by apply Forall_filter_keeps.
    destruct (filter _ _); [done|]. by destruct (view s).
Qed.

(** The message after an event: the one before, none, or one of the
    fourteen texts. *)
Lemma step_message (e : Event) :
  message (view (step e s)) = message (view s) \/
  message (view (step e s)) = "" \/
  message (view (step e s)) ∈ notifications.
Proof.
  destruct e as [i|h|n kd o|d].
  - left. by destruct i, s as [[] ? ? ? ? ? ?].
  - left. by destruct (invoke_registers h s) as (p & _ & ->).
  - cbn [step].
    destruct (complete_cases n kd o) as [->|(p & o' & Hp & _ & ->)];
      [by left|].
    match goal with |- context [run _ ?s0] =>
      destruct (resume_known_notifies _ Hp o' s0) as (_ & Hm & _) end.
    by right; right.
  - destruct HInv as (_ & Ht & _). cbn [step]. unfold advance. cbn [view].
    rewrite fold_clears by by apply Forall_filter_keeps.
    destruct (filter _ _); [by left|]. right; left. by destruct (view s).
Qed.

(** The requests an event sends are requests of the page's handlers. *)
Lemma step_sent (e : Event) :
  exists l, sent (step e s) = sent s ++ map preq l /\ Forall known l.
Proof.
  destruct e as [i|h|n kd o|d].
  - exists []. cbn. by rewrite app_nil_r.
  - destruct (invoke_registers h s) as (p & Hp & ->).
    exists [p]. split; [done|]. apply Forall_singleton. by econstructor.
  - cbn [step].
    destruct (complete_cases n kd o) as [->|(p & o' & Hp & _ & ->)].
    { exists []. cbn. by rewrite app_nil_r. }
    match goal with |- context [run ?q ?s0] =>
      destruct (resume_known _ Hp o' s0) as ((l & Hl & Hkl) & _);
      destruct (run_log q s0) as (l' & Hl' & Hs' & _) end.
    cbn [sent inflight] in *. rewrite Hl in Hl'.
    apply app_inv_head in Hl' as ->. by exists l'.
  - exists []. cbn. by rewrite app_nil_r.
Qed.

End Step.

(** ** Tabs, identifier and texts over whole runs *)

Lemma reachable_activeTab (es : list Event) :
  activeTab (view (steps es init)) = tab_id (last_tab es).
Proof.
  induction es as [|e es IH] using rev_ind; [done|].
  rewrite steps_snoc. unfold last_tab. rewrite foldl_snoc.
  fold (last_tab es).
  destruct (step_cells _ (reachable_Inv es) e) as [-> _].
  destruct e as [[]| | |]; done.
Qed.

Lemma reachable_userId (es : list Event) :
  userId (view (steps es init)) = last_identifier es.
Proof.
  induction es as [|e es IH] using rev_ind; [done|].
  rewrite steps_snoc. unfold last_identifier. rewrite foldl_snoc.
  fold (last_identifier es).
  destruct (step_cells _ (reachable_Inv es) e) as [_ ->].
  destruct e as [[]| | |]; done.
Qed.

(** The tab last selected by the operator (the genres tab before any
    selection) is the one whose body is on the screen, alone, and whose
    button is highlighted, alone: no handler, completion or timer moves the
    page to another tab. *)
Theorem shown_tab_is_last_selected (es : list Event) :
  let v := view (steps es init) in
  activeTab v = tab_id (last_tab es) /\
  shown_panels (render v) = [last_tab es] /\
  buttons (render v) =
    match last_tab es with
    | Genres => [("Genres", true); ("Users", false); ("Wallet", false)]
    | Users => [("Genres", false); ("Users", true); ("Wallet", false)]
    | WalletTab => [("Genres", false); ("Users", false); ("Wallet", true)]
    end.
Proof.
  intros v. pose proof (reachable_activeTab es) as H. fold v in H.
  split; [done|].
  unfold shown_panels, render. cbn. rewrite H.
  by destruct (last_tab es).
Qed.

(** The active identifier is the text typed last into the identifier input,
    on either tab ("user:1234" before any input): no handler, completion or
    timer changes it, and the users tab and the wallet tab both show it. *)
Theorem identifier_is_last_typed (es : list Event) :
  let v := view (steps es init) in
  userId v = last_identifier es /\
  option_map users_id_input (users_panel (render v)) =
    match last_tab es with Users => Some (last_identifier es) | _ => None end
  /\
  option_map wallet_id_input (wallet_panel (render v)) =
    match last_tab es with
    | WalletTab => Some (last_identifier es)
    | _ => None
    end.
Proof.
  intros v. pose proof (reachable_userId es) as H. fold v in H.
  split; [done|].
  pose proof (reachable_activeTab es) as Ht. fold v in Ht.
  unfold render. cbn. rewrite Ht, H. by destruct (last_tab es).
Qed.

(** The toast only ever shows one of the fourteen fixed texts of the
    handlers: nothing that the backend returned, and no detail of an error,
    reaches the notification. *)
Theorem toast_shows_fixed_texts (es : list Event) :
  let v := view (steps es init) in
  (message v = "" \/ message v ∈ notifications) /\
  match toast (render v) with
  | Some m => m ∈ notifications
  | None => True
  end.
Proof.
  intros v.
  assert (H : message v = "" \/ message v ∈ notifications).
  { subst v. induction es as [|e es IH] using rev_ind; [by left|].
    rewrite steps_snoc.
    destruct (step_message _ (reachable_Inv es) e) as [->|[->|?]]; auto. }
  split; [done|]. unfold render. cbn.
  destruct H as [->|H]; [done|].
  by destruct (String.eqb (message v) "").
Qed.

(** Every request the page ever sends goes to the fixed base address; the
    reads carry no header and no body, the writes carry the JSON content
    type and an object. *)
Theorem sent_requests_are_page_requests (es : list Event) :
  Forall page_request (sent (steps es init)).
Proof.
  induction es as [|e es IH] using rev_ind; [constructor|].
  rewrite steps_snoc.
  destruct (step_sent _ (reachable_Inv es) e) as (l & -> & Hl).
  apply Forall_app_2; [done|]. apply Forall_fmap.
  eapply Forall_impl; [exact Hl|]. apply known_page_request.
Qed.

(** ** A notification never outlives its three seconds *)

Section Timers.

Lemma filter_none_keeps_rest {A} (P : A -> Prop)
    `{!forall x, Decision (P x)} (l : list A) :
  filter P l = [] -> filter (fun x => ~ P x) l = l.
Proof.
  induction l as [|x l IH]; [done|].
  rewrite !filter_cons. destruct (decide (P x)) as [HP|HP]; [done|].
  intros Hl. destruct (decide (~ P x)); [|done]. by rewrite IH.
Qed.

Lemma step_timers_live (e : Event) (s : Sys) :
  Inv s -> timers_live s -> timers_live (step e s).
Proof.
  intros HInv [Hf Hm]. destruct e as [i|h|n kd o|d].
  - by destruct i, s as [[] ? ? ? ? ? ?].
  - by destruct (invoke_registers h s) as (p & _ & ->).
  - cbn [step].
    destruct (complete_cases s HInv n kd o) as [->|(p & o' & Hp & _ & ->)];
      [done|].
    match goal with |- context [run ?q ?s0] =>
      destruct (resume_known_notifies _ Hp o' s0) as (Ht & _);
      destruct (run_log q s0) as (_ & _ & _ & _ & Hnow) end.
    cbn [timers now] in *. unfold timers_live. rewrite Ht, Hnow. split.
    + apply Forall_app_2; [done|]. apply Forall_singleton. cbn. lia.
    + right. by destruct (timers s).
  - destruct HInv as (_ & Hc & _). cbn [step]. unfold timers_live. split.
    + cbn [advance timers now]. apply Forall_forall. intros t Ht.
      apply list_elem_of_filter in Ht as [Hlate Ht].
      rewrite Forall_forall in Hf. specialize (Hf t Ht). lia.
    + rewrite (advance_message d s Hc). unfold advance. cbn [timers].
      destruct (filter (fun x => (x.1 <= now s + d)%N) (timers s))
        as [|t l] eqn:Hdue; [|by left].
      rewrite (filter_none_keeps_rest _ _ Hdue). done.
Qed.

Lemma reachable_timers_live (es : list Event) : timers_live (steps es init).
Proof.
  induction es as [|e es IH] using rev_ind.
  - split; [constructor|by left].
  - rewrite steps_snoc. apply step_timers_live; [apply reachable_Inv|done].
Qed.

End Timers.

(** In every reachable state each pending timer falls due within the next
    3000 ms, and a message that is shown has a timer pending.  So once 3000
    ms pass without another event the message is empty, the toast is off the
    screen and no timer is left: a notification is never stuck. *)
Theorem notification_gone_after_three_seconds (es : list Event) (d : N) :
  let s := steps es init in
  timers_live s /\
  ((3000 <= d)%N ->
   let s' := step (Advance d) s in
   message (view s') = "" /\ toast (render (view s')) = None /\
   timers s' = []).
Proof.
  intros s. pose proof (reachable_timers_live es) as Hl. fold s in Hl.
  split; [done|]. intros Hd s'.
  destruct (reachable_Inv es) as (_ & Hc & _). fold s in Hc.
  destruct Hl as [Hf Hm].
  assert (Hdue : Forall (fun t => (t.1 <= now s + d)%N) (timers s)).
  { eapply Forall_impl; [exact Hf|]. cbn. intros t Ht. lia. }
  assert (Hmsg : message (view s') = "").
  { subst s'. cbn [step]. rewrite (advance_message d s Hc).
    destruct (filter _ _) eqn:Hfl; [|done].
    destruct Hm as [Hm|Hm]; [done|]. exfalso.
    destruct (timers s) as [|t ts] eqn:Hts; [done|].
    apply Forall_cons in Hdue as [Ht _].
    rewrite filter_cons in Hfl. by destruct (decide _). }
  split; [done|]. split.
  - unfold render. cbn [toast]. by rewrite Hmsg.
  - subst s'. cbn [step advance timers]. apply filter_none.
    eapply Forall_impl; [exact Hdue|]. cbn. tauto.
Qed.

Lemma notification_gone_after_three_seconds_witness :
  let s := steps two_notifications init in
  let s' := step (Advance 3000) s in
  (3000 <= 3000)%N /\
  message (view s) = "Error loading genres" /\
  message (view s') = "" /\ toast (render (view s')) = None /\
  timers s' = [].
Proof.
  intros s s'.
  assert (H : (3000 <= 3000)%N) by lia.
  split; [exact H|]. split; [reflexivity|].
  exact (proj2 (notification_gone_after_three_seconds
                  two_notifications 3000) H).
Defined.

(** ** The remaining outcomes of the handlers *)

(** [updateUser] sends a PUT to the address of the active identifier, with
    the same payload as [createUser].  When it settles without an exception
    the notification reads "User updated!", the profile snapshot is still
    the previous one and a [fetchProfile] for the same identifier has been
    issued; when it throws, the notification reads "Error updating user",
    the snapshot stays and nothing is sent. *)
Theorem updateUser_outcomes :
  (forall s : Sys,
     let s1 := step (Invoke UpdateUser) s in
     let v := view s in
     sent s1 = sent s ++
       [send PUT (API_BASE +:+ "/users/" +:+ userId v)
          (JObj [("id", JStr (userId v)); ("username", JStr (username v));
                 ("email", JStr (email v));
                 ("subscription_level",
                  json_of_number (parseInt (subLevel v)))])]
     /\ awaits s1 (length (inflight s)) (updateUser v)
     /\ view s1 = v) /\
  (forall (s : Sys) (n : nat) (v : View) (u : unit),
     awaits s n (updateUser v) ->
     let s' := step (Complete n KIgnored (Resolved u)) s in
     message (view s') = "User updated!" /\
     profile (view s') = profile (view s) /\
     sent s' = sent s ++ [get (API_BASE +:+ "/users/" +:+ userId v)] /\
     last (inflight s') = entry_of (fetchProfile v)) /\
  (forall (s : Sys) (n : nat) (v : View),
     awaits s n (updateUser v) ->
     let s' := step (Complete n KIgnored Rejected) s in
     message (view s') = "Error updating user" /\
     profile (view s') = profile (view s) /\
     sent s' = sent s /\
     inflight s' = delete n (inflight s)).
Proof.
  split; [|split].
  - intros s s1 v. split; [done|]. split; [|done].
    apply (invoke_awaits UpdateUser).
  - intros s n v u Hn s'. subst s'.
    rewrite (awaits_complete _ _ _ _ _ _ _ Hn eq_refl).
    destruct s as [[] ? ? ? ? ? ?]; cbn. repeat split.
    apply last_snoc.
  - intros s n v Hn s'. subst s'.
    rewrite (awaits_complete _ _ _ _ _ _ _ Hn eq_refl).
    by destruct s as [[] ? ? ? ? ? ?].
Qed.

Lemma updateUser_outcomes_witness :
  let s := steps [User (TypeUsername "ann"); User (TypeEmail "a@x.com");
                  User (SelectSubLevel "2"); Invoke UpdateUser] init in
  awaits s 0 (updateUser (view s)) /\
  (let s' := step (Complete 0 KIgnored (Resolved tt)) s in
   message (view s') = "User updated!" /\
   profile (view s') = None /\
   sent s' = sent s ++ [get "http://localhost:3001/users/user:1234"] /\
   last (inflight s') = entry_of (fetchProfile (view s))) /\
  (let s' := step (Complete 0 KIgnored Rejected) s in
   message (view s') = "Error updating user" /\
   profile (view s') = None /\
   sent s' = sent s /\
   inflight s' = []).
Proof.
  intros s.
  assert (H : awaits s 0 (updateUser (view s))).
  { split; [by eexists|reflexivity]. }
  split; [exact H|]. split.
  - exact (proj1 (proj2 updateUser_outcomes) s 0 (view s) tt H).
  - exact (proj2 (proj2 updateUser_outcomes) s 0 (view s) H).
Defined.

(** The three reads, both outcomes.  A read that succeeds stores its
    payload in its own snapshot, leaves the other two snapshots alone and
    notifies "... loaded!"; a read that fails changes no snapshot and
    notifies "Error loading ...".  Either way the view is otherwise as it
    was, the request leaves the list of requests in flight and nothing is
    sent. *)
Theorem read_outcomes (s : Sys) (n : nat) (v : View) :
  (awaits s n (fetchGenres v) ->
   (forall data,
      view (step (Complete n KGenres (Resolved data)) s) =
      assign (setMessage "Genres loaded!") (assign (setGenres data) (view s)))
   /\ view (step (Complete n KGenres Rejected) s) =
      assign (setMessage "Error loading genres") (view s)
   /\ forall o, let s' := step (Complete n KGenres o) s in
      inflight s' = delete n (inflight s) /\ sent s' = sent s) /\
  (awaits s n (fetchProfile v) ->
   (forall data,
      view (step (Complete n KProfile (Resolved data)) s) =
      assign (setMessage "Profile loaded!")
             (assign (setProfile data) (view s)))
   /\ view (step (Complete n KProfile Rejected) s) =
      assign (setMessage "Error loading profile") (view s)
   /\ forall o, let s' := step (Complete n KProfile o) s in
      inflight s' = delete n (inflight s) /\ sent s' = sent s) /\
  (awaits s n (fetchWallet v) ->
   (forall data,
      view (step (Complete n KWallet (Resolved data)) s) =
      assign (setMessage "Wallet loaded!")
             (assign (setWallet data) (view s)))
   /\ view (step (Complete n KWallet Rejected) s) =
      assign (setMessage "Error loading wallet") (view s)
   /\ forall o, let s' := step (Complete n KWallet o) s in
      inflight s' = delete n (inflight s) /\ sent s' = sent s).
Proof.
  split; [|split]; intros Hn;
    (split; [intros data|split; [|intros o s'; subst s']]);
    rewrite (awaits_complete _ _ _ _ _ _ _ Hn eq_refl);
    try destruct o; destruct s as [[] ? ? ? ? ? ?]; cbn;
    by rewrite ?app_nil_r.
Qed.

Lemma read_outcomes_witness :
  let w := Some (Wallet.mk 80 20) in
  let s := steps [Invoke FetchGenres; Invoke FetchProfile;
                  Invoke FetchWallet] init in
  awaits s 2 (fetchWallet (view s)) /\
  view (step (Complete 2 KWallet (Resolved w)) s) =
    assign (setMessage "Wallet loaded!")
           (assign (setWallet w) (view s)) /\
  view (step (Complete 2 KWallet Rejected) s) =
    assign (setMessage "Error loading wallet") (view s).
Proof.
  intros w s.
  assert (H : awaits s 2 (fetchWallet (view s))).
  { split; [by eexists|reflexivity]. }
  split; [exact H|].
  destruct (proj2 (proj2 (read_outcomes s 2 (view s))) H)
    as (Hok & Hfail & _).
  split; [exact (Hok w)|exact Hfail].
Defined.

(** ** Responses out of order, and repeated submissions *)

(** Responses are applied in the order in which they arrive.  With two
    profile reads in flight, the snapshot ends as the payload of the one
    that settles last: when the request issued first settles after the one
    issued second, its (older) answer overwrites the newer one.  The same
    holds for two wallet reads. *)
Theorem last_response_wins (s : Sys) (n1 n2 : nat) (v1 v2 : View) :
  n1 < n2 ->
  (awaits s n1 (fetchProfile v1) -> awaits s n2 (fetchProfile v2) ->
   forall p1 p2,
     profile (view (step (Complete n1 KProfile (Resolved p1))
                      (step (Complete n2 KProfile (Resolved p2)) s)))
       = p1 /\
     profile (view (step (Complete (n2 - 1) KProfile (Resolved p2))
                      (step (Complete n1 KProfile (Resolved p1)) s)))
       = p2) /\
  (awaits s n1 (fetchWallet v1) -> awaits s n2 (fetchWallet v2) ->
   forall w1 w2,
     wallet (view (step (Complete n1 KWallet (Resolved w1))
                     (step (Complete n2 KWallet (Resolved w2)) s)))
       = w1 /\
     wallet (view (step (Complete (n2 - 1) KWallet (Resolved w2))
                     (step (Complete n1 KWallet (Resolved w1)) s)))
       = w2).
Proof.
  intros Hlt.
  split; intros [_ H1] [_ H2] x1 x2; cbn in H1, H2; cbn [step];
    (split;
     [ rewrite (complete_at s n2 _ _ _ _ H2); cbn [run fetch try_catch];
       erewrite complete_at;
         [|cbn; rewrite list_lookup_delete_lt by lia; exact H1]
     | rewrite (complete_at s n1 _ _ _ _ H1); cbn [run fetch try_catch];
       erewrite complete_at;
         [|cbn; rewrite list_lookup_delete_ge by lia;
           replace (S (n2 - 1)) with n2 by lia; exact H2] ]);
    by destruct s as [[] ? ? ? ? ? ?].
Qed.

Lemma last_response_wins_witness :
  let pa := Some (UserProfile.mk "user:a" "ann" "a@x.com" 1) in
  let pb := Some (UserProfile.mk "user:b" "bob" "b@x.com" 0) in
  let s0 := steps [User (TypeUserId "user:a")] init in
  let s := steps [Invoke FetchProfile; User (TypeUserId "user:b");
                  Invoke FetchProfile] s0 in
  0 < 1 /\
  awaits s 0 (fetchProfile (view s0)) /\
  awaits s 1 (fetchProfile (view s)) /\
  userId (view s) = "user:b" /\
  profile (view (step (Complete 0 KProfile (Resolved pa))
                   (step (Complete 1 KProfile (Resolved pb)) s)))
    = pa.
Proof.
  intros pa pb s0 s.
  assert (H : 0 < 1) by lia.
  assert (H1 : awaits s 0 (fetchProfile (view s0))).
  { split; [by eexists|reflexivity]. }
  assert (H2 : awaits s 1 (fetchProfile (view s))).
  { split; [by eexists|reflexivity]. }
  split; [exact H|]. split; [exact H1|]. split; [exact H2|].
  split; [reflexivity|].
  exact (proj1 (proj1 (last_response_wins s 0 1 (view s0) (view s) H)
                  H1 H2 pa pb)).
Defined.

(** Invoking a handler changes nothing but the requests in flight and the
    log: the view, the clock and the timers stay.  So a second click sends
    the very same request again, and both are in flight: nothing is
    debounced or de-duplicated. *)
Theorem double_invoke_sends_twice (h : Handler) (s : Sys) :
  exists p,
    entry_of (handler h (view s)) = Some p /\
    step (Invoke h) (step (Invoke h) s) =
    mkSys (view s) (now s) (timers s) (inflight s ++ [p; p])
          (sent s ++ [preq p; preq p]) (history s) (unhandled s).
Proof.
  destruct (invoke_registers h s) as (p & Hp & Hs). exists p.
  split; [done|]. rewrite Hs.
  match goal with |- step _ ?s1 = _ =>
    destruct (invoke_registers h s1) as (p' & Hp' & ->) end.
  cbn [view] in *. rewrite Hp in Hp'. injection Hp' as <-.
  cbn. by rewrite <- !app_assoc.
Qed.

(** [createGenre] followed by the refresh it triggers, from any state and
    with nothing in between.  When the refresh succeeds the list is the
    sequence it returned and the notification is "Genres loaded!", which
    has replaced "Genre created!"; when it fails the list stays and the
    notification is "Error loading genres".  In both cases the three fields
    are empty and exactly the create request and the list request were
    sent. *)
Theorem createGenre_then_refresh (s : Sys) (u : unit)
    (o : Outcome (list Genre.t)) :
  let n := length (inflight s) in
  let v := view s in
  let s1 := step (Invoke CreateGenre) s in
  let s2 := step (Complete n KIgnored (Resolved u)) s1 in
  let s3 := step (Complete n KGenres o) s2 in
  message (view s2) = "Genre created!" /\
  genres (view s3) =
    match o with Resolved data => data | Rejected => genres v end /\
  message (view s3) =
    match o with
    | Resolved _ => "Genres loaded!"
    | Rejected => "Error loading genres"
    end /\
  genre_form (view s3) = ("", "", "") /\
  sent s3 = sent s ++
    [send POST "http://localhost:3001/genres"
       (JObj [("id", JStr (genreId v)); ("name", JStr (genreName v));
              ("listeners", json_of_number (parseInt (genreListeners v)))]);
     get "http://localhost:3001/genres"] /\
  inflight s3 = inflight s.
Proof.
  intros n v s1 s2 s3. subst n v s1 s2 s3.
  rewrite (invoke_complete CreateGenre s KIgnored _ _ (Resolved u) eq_refl).
  destruct s as [[] t ts fl sn hs un]. cbn.
  match goal with |- context [complete ?n ?k ?o ?s0] =>
    rewrite (complete_at s0 n k _ _ o (list_lookup_middle _ [] _ _ eq_refl))
  end.
  cbn [view inflight sent history timers now unhandled].
  rewrite (delete_middle fl []), app_nil_r.
  destruct o; cbn; by rewrite <- ?app_assoc.
Qed.

(** ** Numbers typed into the forms *)

Section Decimal.

Lemma digit_val_char (d : N) :
  (d < 10)%N -> digit_val 10 (pretty_N_char d) = Some d.
Proof.
  intros Hd.
  assert (d = 0 \/ d = 1 \/ d = 2 \/ d = 3 \/ d = 4 \/ d = 5 \/ d = 6 \/
          d = 7 \/ d = 8 \/ d = 9)%N as H by lia.
  repeat destruct H as [->|H]; try subst d; reflexivity.
Qed.

(** Reading the decimal notation of [x], most significant digit first,
    gives [x] back. *)
Lemma digits_pretty_go (x : N) :
  forall s, (0 < x)%N ->
    digits 10 (pretty_N_go x s) None = digits 10 s (Some x).
Proof.
  induction (N.lt_wf_0 x) as [x _ IH]; intros s Hx.
  rewrite pretty_N_go_step by done.
  assert (Hm : (x `mod` 10 < 10)%N) by (apply N.mod_lt; lia).
  destruct (decide (x `div` 10 = 0)%N) as [H0|H0].
  - rewrite H0, pretty_N_go_0. cbn [digits].
    rewrite (digit_val_char _ Hm). cbn [default].
    assert (x `mod` 10 = x)%N as Hx'.
    { pose proof (N.div_mod x 10). lia. }
    by rewrite Hx', N.mul_0_r, N.add_0_l.
  - rewrite IH; [|apply N.div_lt; lia|by apply N.neq_0_lt_0]. cbn [digits].
    rewrite (digit_val_char _ Hm).
    change (default 0%N (Some (x `div` 10)%N)) with (x `div` 10)%N.
    by rewrite <- (N.div_mod x 10).
Qed.

(** The notation of a positive number starts with a digit from 1 to 9. *)
Lemma pretty_go_head (x : N) :
  forall s, (0 < x)%N ->
    exists d r, (0 < d < 10)%N /\
      pretty_N_go x s = String (pretty_N_char d) r.
Proof.
  induction (N.lt_wf_0 x) as [x _ IH]; intros s Hx.
  rewrite pretty_N_go_step by done.
  destruct (decide (x `div` 10 = 0)%N) as [H0|H0].
  - rewrite H0, pretty_N_go_0. exists (x `mod` 10)%N, s. split; [|done].
    pose proof (N.div_mod x 10). pose proof (N.mod_lt x 10). lia.
  - apply IH; [apply N.div_lt; lia|by apply N.neq_0_lt_0].
Qed.

(** No white space is skipped in front of a digit. *)
Lemma skip_ws_digit (d : N) (r : string) :
  (d < 10)%N ->
  skip_ws (String (pretty_N_char d) r) = String (pretty_N_char d) r.
Proof.
  intros Hd.
  assert (d = 0 \/ d = 1 \/ d = 2 \/ d = 3 \/ d = 4 \/ d = 5 \/ d = 6 \/
          d = 7 \/ d = 8 \/ d = 9)%N as H by lia.
  repeat destruct H as [->|H]; try subst d; reflexivity.
Qed.

Lemma parseInt_leading_digit (d : N) (r : string) :
  (0 < d < 10)%N ->
  parseInt (String (pretty_N_char d) r) =
  match digits 10 (String (pretty_N_char d) r) None with
  | Some n => number_of_integer (Z.of_N n)
  | None => NaN
  end.
Proof.
  intros Hd. unfold parseInt. rewrite skip_ws_digit by lia.
  assert (d = 1 \/ d = 2 \/ d = 3 \/ d = 4 \/ d = 5 \/ d = 6 \/
          d = 7 \/ d = 8 \/ d = 9)%N as H by lia.
  repeat destruct H as [->|H]; try subst d;
    cbn -[digits Z.mul Z.of_N number_of_integer];
    destruct (digits _ _ _); by rewrite ?Z.mul_1_l.
Qed.

(** Up to 2^53 the double is the integer itself. *)
Lemma number_of_integer_exact (z : Z) :
  (Z.abs z <= 2 ^ 53)%Z -> number_of_integer z = Num z.
Proof.
  intros H. unfold number_of_integer. apply Z.leb_le in H. by rewrite H.
Qed.

Lemma parseInt_pretty (n : N) :
  (Z.of_N n <= 2 ^ 53)%Z -> parseInt (pretty n) = Num (Z.of_N n).
Proof.
  intros Hn. unfold pretty, pretty_N.
  destruct (decide (n = 0)%N) as [->|Hn0]; [reflexivity|].
  assert (Hpos : (0 < n)%N) by lia.
  destruct (pretty_go_head n "" Hpos) as (d & r & Hd & Hr).
  rewrite Hr, (parseInt_leading_digit d r Hd), <- Hr.
  rewrite (digits_pretty_go n "" Hpos). cbn [digits].
  apply number_of_integer_exact. by rewrite Z.abs_eq by lia.
Qed.

End Decimal.

(** A natural number up to 2^53, typed in decimal notation, reaches the
    backend as that number: with the notation of [n] in the amount field,
    the transfer request carries [{amount: n}], and with it in the listeners
    field, the create request carries [listeners: n].  (Beyond 2^53 the
    number sent is the nearest double, or [null].) *)
Theorem decimal_input_is_sent_as_number (n : N) (s : Sys) :
  (Z.of_N n <= 2 ^ 53)%Z ->
  parseInt (pretty n) = Num (Z.of_N n) /\
  (let s1 := step (User (TypeTransferAmount (pretty n))) s in
   sent (step (Invoke TransferCredits) s1) = sent s ++
     [send POST
        (API_BASE +:+ "/users/" +:+ userId (view s) +:+ "/wallet/transfer")
        (JObj [("amount", JNum (Z.of_N n))])]) /\
  (let s1 := step (User (TypeGenreListeners (pretty n))) s in
   sent (step (Invoke CreateGenre) s1) = sent s ++
     [send POST "http://localhost:3001/genres"
        (JObj [("id", JStr (genreId (view s)));
               ("name", JStr (genreName (view s)));
               ("listeners", JNum (Z.of_N n))])]).
Proof.
  intros Hn. split; [by apply parseInt_pretty|].
  destruct s as [[] ? ? ? ? ? ?]; cbn -[parseInt pretty].
  by rewrite !parseInt_pretty.
Qed.

Lemma decimal_input_is_sent_as_number_witness :
  let n := 9007199254740992%N in
  let s1 := step (User (TypeTransferAmount "9007199254740992")) init in
  (Z.of_N n <= 2 ^ 53)%Z /\
  parseInt "9007199254740992" = Num 9007199254740992 /\
  sent (step (Invoke TransferCredits) s1) =
    [send POST "http://localhost:3001/users/user:1234/wallet/transfer"
       (JObj [("amount", JNum 9007199254740992)])].
Proof.
  intros n s1.
  assert (H : (Z.of_N n <= 2 ^ 53)%Z) by (vm_compute; discriminate).
  split; [exact H|].
  destruct (decimal_input_is_sent_as_number n init H) as (Hp & Ht & _).
  split; [exact Hp|exact Ht].
Defined.

(** Beyond 2^53 the text is sent as the nearest double, and a text too long
    for a double is sent as [null]. *)
Example parseInt_beyond_exact_integers :
  parseInt "9007199254740993" = Num 9007199254740992 /\
  parseInt "9007199254740995" = Num 9007199254740996 /\
  json_of_number (parseInt (pretty (10 ^ 309)%N)) = JNull.
Proof. by vm_compute. Qed.

(** ** Snapshots on the screen *)

Section Snapshots.

Variable s : Sys.
Hypothesis HInv : Inv s.

(** A completion is ignored, or resumes one of the page's handlers with the
    outcome delivered. *)
Lemma complete_known (n : nat) (kd : Kind) (o : Outcome (data kd)) :
  complete n kd o s = s \/
  exists req k,
    known (mkPending kd req k) /\
    inflight s !! n = Some (mkPending kd req k) /\
    complete n kd o s =
    run (k o)
        (mkSys (view s) (now s) (timers s) (delete n (inflight s)) (sent s)
               (history s ++ [mkReply kd req o]) (unhandled s)).
Proof.
  destruct HInv as (Hk & _ & _). unfold complete.
  destruct (inflight s !! n) as [p|] eqn:Hn; [|by left].
  pose proof (Forall_lookup_1 _ _ _ _ Hk Hn) as Hkp.
  destruct p as [kd' req k]; cbn [pkind pcont preq] in *.
  destruct (Kind_eq_dec kd kd') as [e|]; [|by left].
  subst kd'; cbn [eq_rect]. right. by exists req, k.
Qed.

(** An event changes the profile snapshot only when it is a profile read
    that succeeds, and the wallet snapshot only when it is a wallet read
    that succeeds; the snapshot is then the payload. *)
Lemma step_changes_own_read (e : Event) :
  (profile (view (step e s)) = profile (view s) \/
   exists n d, e = Complete n KProfile (Resolved d) /\
               profile (view (step e s)) = d) /\
  (wallet (view (step e s)) = wallet (view s) \/
   exists n d, e = Complete n KWallet (Resolved d) /\
               wallet (view (step e s)) = d).
Proof.
  destruct e as [i|h|n kd o|d].
  - pose proof (assign_input_snapshots i (view s)) as Hi.
    injection Hi as _ Hp Hw. cbn. by split; left.
  - destruct (invoke_registers h s) as (p & _ & ->). by split; left.
  - cbn [step].
    destruct (complete_known n kd o) as [->|(req & k & Hp & _ & Hc)];
      [by split; left|].
    match type of Hc with _ = run _ ?s0 =>
      destruct (resume_known _ Hp o s0) as (_ & _ & _ & _ & Hpr & Hw & _)
    end.
    cbn [view pkind preq pcont] in *. rewrite <- Hc in Hpr, Hw.
    rewrite Hpr, Hw. destruct kd; destruct o as [|d]; cbn;
      (split; [first [by left | right; by exists n, d]
              |first [by left | right; by exists n, d]]).
  - destruct HInv as (_ & Ht & _). cbn [step]. unfold advance. cbn [view].
    rewrite fold_clears by by apply Forall_filter_keeps.
    destruct (filter _ _); [by split; left|].
    destruct (view s). by split; left.
Qed.

End Snapshots.

(** The profile snapshot changes only when a profile read succeeds, and the
    wallet snapshot only when a wallet read succeeds: no other event, and in
    particular no failed request, no write and no timer, touches them.
    Typing a new identifier changes [userId] and no snapshot, so the card
    loaded for the previous identifier stays on the screen, under the new
    identifier, until a later read succeeds. *)
Theorem snapshots_change_only_on_own_read (es : list Event) (e : Event)
    (b : string) :
  let s := steps es init in
  (profile (view (step e s)) = profile (view s) \/
   exists n d, e = Complete n KProfile (Resolved d) /\
               profile (view (step e s)) = d) /\
  (wallet (view (step e s)) = wallet (view s) \/
   exists n d, e = Complete n KWallet (Resolved d) /\
               wallet (view (step e s)) = d) /\
  (let s1 := step (User (TypeUserId b)) s in
   userId (view s1) = b /\ snapshots (view s1) = snapshots (view s)).
Proof.
  intros s.
  destruct (step_changes_own_read s (reachable_Inv es) e) as [Hp Hw].
  split; [exact Hp|]. split; [exact Hw|].
  by destruct s as [[] ? ? ? ? ? ?].
Qed.

(** The card of the previous identifier under the new one, and a [null]
    body taking the card away under "Profile loaded!". *)
Example stale_card_and_null_body :
  let s := steps (create_ann ++ [User (SelectTab Users);
                                 User (TypeUserId "user:b")]) init in
  let s' := steps [Invoke FetchProfile;
                   Complete 0 KProfile (Resolved None)] s in
  users_panel (render (view s)) =
    Some (mkUsersPanel "user:b" (Some (mkProfileCard "ann" "a@x.com" 1))
                       "ann" "a@x.com" "1") /\
  profile (view s') = None /\ message (view s') = "Profile loaded!".
Proof. by vm_compute. Qed.

(** While the genres tab is open, the list on the screen has one card per
    genre of the latest successful load, in the order the backend gave, and
    is empty before the first one; on the other tabs no list is shown.  The
    profile card and the balances are those of the payload of the latest
    successful read of their domain: there is none before the first such
    read, and none when that payload is [null]. *)
Theorem screen_shows_latest_reads (es : list Event) :
  let s := steps es init in
  let sc := render (view s) in
  option_map genre_cards (genres_panel sc) =
    match last_tab es with
    | Genres =>
        Some (cards_of (default [] (last (omap genres_of (history s)))))
    | _ => None
    end /\
  option_map users_profile (users_panel sc) =
    match last_tab es with
    | Users =>
        Some (option_map
                (fun p => mkProfileCard (UserProfile.username p)
                            (UserProfile.email p)
                            (UserProfile.subscription_level p))
                (default None (last (omap profile_of (history s)))))
    | _ => None
    end /\
  option_map wallet_balances (wallet_panel sc) =
    match last_tab es with
    | WalletTab =>
        Some (option_map
                (fun w => mkWalletCard (Wallet.coin_balance w)
                            (Wallet.credit_balance w))
                (default None (last (omap wallet_of (history s)))))
    | _ => None
    end.
Proof.
  intros s sc. subst sc.
  destruct (reachable_Inv es) as (_ & _ & Hg & Hp & Hw). fold s in Hg, Hp, Hw.
  pose proof (reachable_activeTab es) as Ht. fold s in Ht.
  unfold render. cbn. rewrite Ht, <- Hg, <- Hp, <- Hw.
  by destruct (last_tab es).
Qed.

(** ** Texts that are not plain numbers *)

Section Truncation.

Lemma pretty_go_app (x : N) :
  forall s r, pretty_N_go x s +:+ r = pretty_N_go x (s +:+ r).
Proof.
  induction (N.lt_wf_0 x) as [x _ IH]; intros s r.
  destruct (decide (x = 0)%N) as [->|Hx]; [by rewrite !pretty_N_go_0|].
  assert (0 < x)%N as Hpos by lia.
  rewrite (pretty_N_go_step x s), (pretty_N_go_step x (s +:+ r)) by done.
  rewrite IH; [reflexivity|].
  by apply N.div_lt.
Qed.

Lemma digits_stop (rest : string) (acc : option N) :
  stops_decimal rest -> digits 10 rest acc = acc.
Proof.
  destruct rest as [|c r]; [done|]. unfold stops_decimal. intros H.
  cbn [digits]. by rewrite H.
Qed.

Lemma parseInt_zero_then (rest : string) :
  stops_decimal rest -> not_hex_mark rest ->
  parseInt (String "0" rest) = Num 0.
Proof.
  destruct rest as [|c r]; [reflexivity|]. cbn. intros Hstop [Hx HX].
  destruct c as [[] [] [] [] [] [] [] []];
    first [done | discriminate Hstop | reflexivity].
Qed.

End Truncation.

(** [parseInt] reads the leading digits and drops the rest.  When the text
    is the decimal notation of [n], up to 2^53, followed by anything that
    does not start with a digit (a fraction ".5", an exponent "e3", a
    unit), the number sent is [n]: the amount "2.5" is sent as 2 and "1e3"
    as 1.  The one exception is a "0" followed by "x", which starts a
    hexadecimal number. *)
Theorem parseInt_drops_the_tail (n : N) (rest : string) (s : Sys) :
  (Z.of_N n <= 2 ^ 53)%Z ->
  stops_decimal rest -> (n <> 0%N \/ not_hex_mark rest) ->
  parseInt (pretty n +:+ rest) = Num (Z.of_N n) /\
  (let s1 := step (User (TypeTransferAmount (pretty n +:+ rest))) s in
   sent (step (Invoke TransferCredits) s1) = sent s ++
     [send POST
        (API_BASE +:+ "/users/" +:+ userId (view s) +:+ "/wallet/transfer")
        (JObj [("amount", JNum (Z.of_N n))])]).
Proof.
  intros Hn53 Hstop Hhex.
  assert (H : parseInt (pretty n +:+ rest) = Num (Z.of_N n)).
  { unfold pretty, pretty_N. destruct (decide (n = 0)%N) as [->|Hn].
    - destruct Hhex as [?|Hhex]; [done|]. by apply parseInt_zero_then.
    - assert (Hpos : (0 < n)%N) by lia.
      rewrite pretty_go_app. change ("" +:+ rest) with rest.
      destruct (pretty_go_head n rest Hpos) as (d & r & Hd & Hr).
      rewrite Hr, (parseInt_leading_digit d r Hd), <- Hr.
      rewrite (digits_pretty_go n rest Hpos), digits_stop by done.
      apply number_of_integer_exact. by rewrite Z.abs_eq by lia. }
  split; [done|].
  destruct s as [[] ? ? ? ? ? ?]; cbn -[parseInt pretty String.append].
  by rewrite H.
Qed.

Lemma parseInt_drops_the_tail_witness :
  ((Z.of_N 2 <= 2 ^ 53)%Z /\
   stops_decimal ".5" /\ (2%N <> 0%N \/ not_hex_mark ".5") /\
   parseInt "2.5" = Num 2) /\
  ((Z.of_N 1 <= 2 ^ 53)%Z /\
   stops_decimal "e3" /\ (1%N <> 0%N \/ not_hex_mark "e3") /\
   parseInt "1e3" = Num 1).
Proof.
  assert (H0 : (Z.of_N 2 <= 2 ^ 53)%Z) by (vm_compute; discriminate).
  assert (H1 : stops_decimal ".5") by reflexivity.
  assert (H2 : 2%N <> 0%N \/ not_hex_mark ".5") by (left; lia).
  assert (H0' : (Z.of_N 1 <= 2 ^ 53)%Z) by (vm_compute; discriminate).
  assert (H3 : stops_decimal "e3") by reflexivity.
  assert (H4 : 1%N <> 0%N \/ not_hex_mark "e3") by (left; lia).
  split.
  - split; [exact H0|]. split; [exact H1|]. split; [exact H2|].
    exact (proj1 (parseInt_drops_the_tail 2 ".5" init H0 H1 H2)).
  - split; [exact H0'|]. split; [exact H3|]. split; [exact H4|].
    exact (proj1 (parseInt_drops_the_tail 1 "e3" init H0' H3 H4)).
Defined.

(** ** No retry, no cascade *)

(** What the resumed rest of a handler sends: nothing after a rejection and
    nothing after a read; after a write that was not rejected, one read. *)
Lemma known_sends (p : Pending) :
  known p -> forall (o : Outcome (data (pkind p))) (s : Sys),
  let s' := run (pcont p o) s in
  (o = Rejected -> sent s' = sent s) /\
  (pkind p <> KIgnored -> sent s' = sent s) /\
  (pkind p = KIgnored -> o <> Rejected ->
   exists r, sent s' = sent s ++ [r] /\ method r = GET /\ body r = None).
Proof.
  intros [h v q H].
  destruct h; cbn in H; injection H as <-; intros [|d] [vw t ts fl sn hs u];
    cbn; repeat split; try done; intros; by eexists.
Qed.

(** A settled request is never retried and a read triggers nothing.  In
    every reachable state a rejection, of a read or of a write, sends no
    request; the completion of a read, whatever its outcome, sends no
    request; and a write that settles without an exception sends exactly
    one request, a GET without body: its refresh. *)
Theorem settled_requests_are_not_retried (es : list Event) (n : nat) :
  let s := steps es init in
  (forall kd : Kind, sent (step (Complete n kd Rejected) s) = sent s) /\
  (forall o, sent (step (Complete n KGenres o) s) = sent s) /\
  (forall o, sent (step (Complete n KProfile o) s) = sent s) /\
  (forall o, sent (step (Complete n KWallet o) s) = sent s) /\
  (forall u : unit,
     let s' := step (Complete n KIgnored (Resolved u)) s in
     s' = s \/
     exists r, sent s' = sent s ++ [r] /\ method r = GET /\ body r = None).
Proof.
  intros s.
  assert (H : forall kd (o : Outcome (data kd)),
             step (Complete n kd o) s = s \/
             (o = Rejected -> sent (step (Complete n kd o) s) = sent s) /\
             (kd <> KIgnored -> sent (step (Complete n kd o) s) = sent s) /\
             (kd = KIgnored -> o <> Rejected ->
              exists r, sent (step (Complete n kd o) s) = sent s ++ [r] /\
                        method r = GET /\ body r = None)).
  { intros kd o. cbn [step].
    destruct (complete_known s (reachable_Inv es) n kd o)
      as [->|(req & k & Hp & _ & ->)]; [by left|]. right.
    match goal with |- context [run _ ?s0] =>
      exact (known_sends _ Hp o s0) end. }
  split; [|split; [|split; [|split]]].
  - intros kd. destruct (H kd Rejected) as [->|(Hr & _)]; auto.
  - intros o. destruct (H KGenres o) as [->|(_ & Hr & _)]; auto.
  - intros o. destruct (H KProfile o) as [->|(_ & Hr & _)]; auto.
  - intros o. destruct (H KWallet o) as [->|(_ & Hr & _)]; auto.
  - intros u s'. subst s'.
    destruct (H KIgnored (Resolved u)) as [->|(_ & _ & Hr)]; [by left|].
    right. by apply Hr.
Qed.

(** A write that is accepted sends its refresh and nothing more, and the
    refresh that fails is not tried again. *)
Example refresh_sent_once :
  let s := steps [Invoke TransferCredits;
                  Complete 0 KIgnored (Resolved tt);
                  Complete 0 KWallet Rejected] init in
  map method (sent s) = [POST; GET] /\ inflight s = [] /\
  message (view s) = "Error loading wallet".
Proof. by vm_compute. Qed.
